(** * Parallel query iteration of bevy_ecs (crates/bevy_ecs/src/query/par_iter.rs)

    A shallow embedding of [QueryParIter], [QueryParManyIter] and
    [QueryParManyUniqueIter] with the pieces of the ECS they call:
    the batching strategy, the sequential query iterator and the
    parallel fold helpers of [QueryState].

    Effects are threaded through a small writer-over-option monad
    [Exec]: [None] is a panic, the log records the observable calls
    (consulting the batching strategy, invoking the max-items supplier,
    calling [init], applying the fold function to an item).  Tasks
    spawned on the pool are executed in spawn order; any other
    completion order only permutes whole task blocks of the log. *)

From Stdlib Require Import List Bool Arith NArith PArith Lia Permutation.
Import ListNotations.

(* ------------------------------------------------------------------ *)
(** ** Execution monad *)

Inductive Event :=
| EvStrategy              (* BatchingStrategy::calc_batch_size consulted *)
| EvMaxItems              (* the max-items supplier closure invoked *)
| EvInit                  (* init() called *)
| EvFold (e : nat).       (* fold function applied to the item of entity e *)

Definition Exec (A : Type) : Type := option (A * list Event).

Definition ret {A} (a : A) : Exec A := Some (a, []).

Definition bind {A B} (m : Exec A) (f : A -> Exec B) : Exec B :=
  match m with
  | None => None
  | Some (a, l1) =>
      match f a with
      | None => None
      | Some (b, l2) => Some (b, l1 ++ l2)
      end
  end.

Notation "x <- m ;; k" := (bind m (fun x => k))
  (at level 61, m at next level, right associativity).

Definition emit (ev : Event) : Exec unit := Some (tt, [ev]).

(** A failed lookup (an out-of-range index into [Tables] or
    [Archetypes]) panics. *)
Definition lift {A} (o : option A) : Exec A :=
  match o with Some a => ret a | None => None end.

Fixpoint mapM {A B} (f : A -> Exec B) (l : list A) : Exec (list B) :=
  match l with
  | [] => ret []
  | x :: r => y <- f x ;; ys <- mapM f r ;; ret (y :: ys)
  end.

(** The items the fold function was applied to, in log order. *)
Fixpoint folded (log : list Event) : list nat :=
  match log with
  | [] => []
  | EvFold e :: r => e :: folded r
  | _ :: r => folded r
  end.

(* ------------------------------------------------------------------ *)
(** ** Data model *)

Definition Entity := nat.
Definition TableId := nat.
Definition ArchetypeId := nat.
(** [StorageId] is a union of [TableId] and [ArchetypeId]; which one
    is meant is decided by [QueryState::is_dense]. *)
Definition StorageId := nat.
Definition Tick := N.

(** Tables and archetypes, each given by the entities it stores (slot
    order); [entity_count()] and [len()] are the lengths. *)
Record World := {
  tables : list (list Entity);
  archetypes : list (list Entity)
}.

Inductive Access := ReadOnlyAccess | MutableAccess.

(** The [D: QueryData] parameter, reduced to the access it requests. *)
Record QueryData := { qd_access : Access }.

(** The [ReadOnlyQueryData] trait bound. *)
Class ReadOnlyQueryData (D : QueryData) : Prop :=
  read_only_access : qd_access D = ReadOnlyAccess.

(** [QueryState<D, F>]: matched storage ids, the dense flag, the
    matched archetypes, and the per-entity check of the filter [F]
    under the tick pair (change detection). *)
Record QueryState (D : QueryData) := {
  matched_storage_ids : list StorageId;
  is_dense : bool;
  matched_archetypes : list ArchetypeId;
  filter_fetch : Tick -> Tick -> Entity -> bool
}.
Arguments matched_storage_ids {D}.
Arguments is_dense {D}.
Arguments matched_archetypes {D}.
Arguments filter_fetch {D}.

(** [ComputeTaskPool::get().thread_num()]: [None] when the pool was not
    initialised ([get] panics).  [multi_threaded] is the
    [cfg(all(not(target_arch = "wasm32"), feature = "multi_threaded"))]. *)
Record Env := {
  multi_threaded : bool;
  compute_task_pool : option N
}.

Definition thread_num (env : Env) : Exec N := lift (compute_task_pool env).

(** [as u32] *)
Definition as_u32 (x : N) : N := N.modulo x 4294967296.

(* ------------------------------------------------------------------ *)
(** ** Batching strategy *)

(** Modelled from the spec: [BatchingStrategy] and
    [BatchingStrategy::calc_batch_size] (crates/bevy_ecs/src/batching.rs,
    not in the sources), §3 and §4.2: an optional explicit batch size,
    limits [(min, max)] with an unbounded max written [None], and a
    positive number of batches per thread. *)
Record BatchingStrategy := {
  batch_size_override : option N;
  batch_size_limits : N * option N;
  batches_per_thread : positive
}.

Definition default_strategy : BatchingStrategy :=
  {| batch_size_override := None; batch_size_limits := (0%N, None);
     batches_per_thread := 1%positive |}.

Definition ceil_div (a b : N) : N := (a + b - 1) / b.

(** Modelled from the spec: [calc_batch_size(max_items_supplier,
    thread_count)].  The supplier is an [Exec] computation: its effects
    (log, panic) happen only where it is bound. *)
Definition calc_batch_size (s : BatchingStrategy) (max_items : Exec N)
    (thread_count : N) : Exec N :=
  _ <- emit EvStrategy ;;
  match batch_size_override s with
  | Some n => ret n
  | None =>
      m <- max_items ;;
      let batches := (thread_count * Npos (batches_per_thread s))%N in
      let c := ceil_div m batches in
      let '(mn, mx) := batch_size_limits s in
      ret (N.max mn (match mx with None => c | Some mx => N.min mx c end))
  end.

(* ------------------------------------------------------------------ *)
(** ** Storage access *)

(** [tables[id.table_id].entity_count()]: panics out of range. *)
Definition table_entity_count (w : World) (id : TableId) : Exec nat :=
  t <- lift (nth_error (tables w) id) ;; ret (length t).

(** [archetypes[id.archetype_id].len()]: panics out of range. *)
Definition archetype_len (w : World) (id : ArchetypeId) : Exec nat :=
  a <- lift (nth_error (archetypes w) id) ;; ret (length a).

(** The entities of a matched storage, a table when the state is dense
    and an archetype otherwise. *)
Definition storage_entities {D} (w : World) (q : QueryState D)
    (id : StorageId) : option (list Entity) :=
  if is_dense q then nth_error (tables w) id else nth_error (archetypes w) id.

(** [Iterator::max] over the counts, [None] for no counts. *)
Definition iter_max (l : list N) : option N :=
  fold_left (fun acc x => match acc with
                          | None => Some x
                          | Some m => Some (N.max m x)
                          end) l None.

(* ------------------------------------------------------------------ *)
(** ** Sequential query core *)

Fixpoint fold_m {T} (func : T -> Entity -> T) (acc : T) (items : list Entity)
    : Exec T :=
  match items with
  | [] => ret acc
  | e :: r => _ <- emit (EvFold e) ;; fold_m func (func acc e) r
  end.

(** Modelled from the spec: the iterator of
    [query_unchecked_manual_with_ticks(world, last_run, this_run)] (§4.3,
    the query iterator is not in the sources): every matched storage in
    order, in slot order, the entities passing the filter. *)
Fixpoint storages_items {D} (w : World) (q : QueryState D) (last_run this_run : Tick)
    (ids : list StorageId) : option (list Entity) :=
  match ids with
  | [] => Some []
  | id :: rest =>
      match storage_entities w q id, storages_items w q last_run this_run rest with
      | Some es, Some r => Some (filter (filter_fetch q last_run this_run) es ++ r)
      | _, _ => None
      end
  end.

Definition query_items {D} (w : World) (q : QueryState D) (last_run this_run : Tick)
    : option (list Entity) :=
  storages_items w q last_run this_run (matched_storage_ids q).

(** Modelled from the spec: [Entities::get] followed by the match test
    of [iter_many_inner] (§4.3): the archetype holding the entity. *)
Fixpoint entity_location (archs : list (list Entity)) (e : Entity) (i : nat)
    : option ArchetypeId :=
  match archs with
  | [] => None
  | a :: r => if existsb (Nat.eqb e) a then Some i else entity_location r e (S i)
  end.

(** An entity of the list is fetched when it is alive, its archetype is
    matched and the filter passes; otherwise it is skipped. *)
Definition fetch_many {D} (w : World) (q : QueryState D) (last_run this_run : Tick)
    (e : Entity) : bool :=
  match entity_location (archetypes w) e 0 with
  | Some a => existsb (Nat.eqb a) (matched_archetypes q)
              && filter_fetch q last_run this_run e
  | None => false
  end.

(** Modelled from the spec: [iter_many_inner(list)] and
    [iter_many_unique_inner(set)]: the input order, unmatched entities
    skipped. *)
Definition iter_many_items {D} (w : World) (q : QueryState D) (last_run this_run : Tick)
    (l : list Entity) : list Entity :=
  filter (fetch_many w q last_run this_run) l.

(* ------------------------------------------------------------------ *)
(** ** Parallel dispatch helpers *)

(** A range [(storage, offset, len)] of a storage, a batch is a list of
    ranges folded by one task. *)
Definition StorageRange := (StorageId * nat * nat)%type.
Definition Batch := list StorageRange.

(** [(0..count).step_by(batch_size)] with [len = min(batch_size, count - offset)],
    one batch per range. *)
Fixpoint split_ranges (id : StorageId) (offset count bs : nat) (fuel : nat)
    : list Batch :=
  match fuel with
  | O => []
  | S f =>
      if count <=? bs then [[(id, offset, count)]]
      else [(id, offset, bs)] :: split_ranges id (offset + bs) (count - bs) bs f
  end.

Definition flush (queue : Batch) : list Batch :=
  match queue with [] => [] | _ => [queue] end.

(** Modelled from the spec: the batching of
    [par_fold_init_unchecked_manual] (§4.4 step 3, not in the sources):
    empty storages are skipped, a storage of at least [batch_size]
    entities is split into batches of at most [batch_size], smaller
    storages are coalesced into a queue that is flushed before it would
    exceed [batch_size]. *)
Fixpoint plan_batches {D} (w : World) (q : QueryState D) (bs : N)
    (ids : list StorageId) (queue : Batch) (queue_count : N) : option (list Batch) :=
  match ids with
  | [] => Some (flush queue)
  | id :: rest =>
      match storage_entities w q id with
      | None => None
      | Some es =>
          let count := length es in
          if count =? 0 then plan_batches w q bs rest queue queue_count
          else if (bs <=? N.of_nat count)%N then
            option_map (fun r => split_ranges id 0 count (N.to_nat bs) count ++ r)
              (plan_batches w q bs rest queue queue_count)
          else if (queue_count + N.of_nat count <=? bs)%N then
            plan_batches w q bs rest (queue ++ [(id, 0, count)])
              (queue_count + N.of_nat count)
          else
            option_map (fun r => flush queue ++ r)
              (plan_batches w q bs rest [(id, 0, count)] (N.of_nat count))
      end
  end.

(** [fold_over_storage_range]: the filtered entities of the range. *)
Definition range_items {D} (w : World) (q : QueryState D) (last_run this_run : Tick)
    (r : StorageRange) : option (list Entity) :=
  let '(id, offset, len) := r in
  match storage_entities w q id with
  | Some es => Some (filter (filter_fetch q last_run this_run) (firstn len (skipn offset es)))
  | None => None
  end.

Fixpoint batch_items {D} (w : World) (q : QueryState D) (last_run this_run : Tick)
    (b : Batch) : option (list Entity) :=
  match b with
  | [] => Some []
  | r :: rest =>
      match range_items w q last_run this_run r, batch_items w q last_run this_run rest with
      | Some x, Some y => Some (x ++ y)
      | _, _ => None
      end
  end.

(** One spawned task: a fresh [init()], then the fold over its ranges. *)
Definition run_task {T D} (w : World) (q : QueryState D) (last_run this_run : Tick)
    (init : unit -> T) (func : T -> Entity -> T) (b : Batch) : Exec T :=
  _ <- emit EvInit ;;
  items <- lift (batch_items w q last_run this_run b) ;;
  fold_m func (init tt) items.

(** Modelled from the spec: [QueryState::par_fold_init_unchecked_manual]
    (§4.4 steps 3-5); returns the accumulators of the tasks. *)
Definition par_fold_init_unchecked_manual {T D} (init : unit -> T) (w : World)
    (q : QueryState D) (bs : N) (func : T -> Entity -> T) (last_run this_run : Tick)
    : Exec (list T) :=
  batches <- lift (plan_batches w q bs (matched_storage_ids q) [] 0) ;;
  mapM (run_task w q last_run this_run init func) batches.

(** [slice::chunks(batch_size)]. *)
Fixpoint chunks {A} (bs : N) (l : list A) (fuel : nat) : list (list A) :=
  match fuel with
  | O => []
  | S f =>
      match l with
      | [] => []
      | _ => if (N.of_nat (length l) <=? bs)%N then [l]
             else firstn (N.to_nat bs) l :: chunks bs (skipn (N.to_nat bs) l) f
      end
  end.

(** Modelled from the spec: [par_many_fold_init_unchecked_manual] and
    [par_many_unique_fold_init_unchecked_manual] (§4.5): the list is cut
    into chunks of [batch_size], one task per chunk. *)
Definition par_many_fold {T D} (init : unit -> T) (w : World) (q : QueryState D)
    (l : list Entity) (bs : N) (func : T -> Entity -> T) (last_run this_run : Tick)
    : Exec (list T) :=
  mapM (fun batch => _ <- emit EvInit ;;
                     fold_m func (init tt) (iter_many_items w q last_run this_run batch))
       (chunks bs l (length l)).

(** A view handed to the fold function: the entity and the access the
    query data requests on it. *)
Definition View := (Entity * Access)%type.

(** Two different tasks hold views of one entity, one of them mutable. *)
Definition aliasing_views (tasks : list (list View)) : Prop :=
  exists i j ti tj e a1 a2,
    i <> j /\ nth_error tasks i = Some ti /\ nth_error tasks j = Some tj /\
    In (e, a1) ti /\ In (e, a2) tj /\ (a1 = MutableAccess \/ a2 = MutableAccess).

(** [UniqueEntityEquivalentVec<E>]: a list without duplicates. *)
Record UniqueEntityVec := {
  uev_list : list Entity;
  uev_unique : NoDup uev_list
}.

(* ------------------------------------------------------------------ *)
(** ** [QueryParIter] *)

Module QueryParIter.

Record t (D : QueryData) := {
  world : World;
  state : QueryState D;
  last_run : Tick;
  this_run : Tick;
  batching_strategy : BatchingStrategy
}.
Arguments world {D}.
Arguments state {D}.
Arguments last_run {D}.
Arguments this_run {D}.
Arguments batching_strategy {D}.

(** [let init = init(); query_unchecked_manual_with_ticks(..).into_iter().fold(init, func)] *)
Definition fold_sequential {T D} (it : t D) (init : unit -> T) (func : T -> Entity -> T)
    : Exec (list T) :=
  _ <- emit EvInit ;;
  let acc0 := init tt in
  items <- lift (query_items (world it) (state it) (last_run it) (this_run it)) ;;
  acc <- fold_m func acc0 items ;;
  ret [acc].

(** The [max_items] closure of [get_batch_size]. *)
Definition max_items {D} (it : t D) : Exec N :=
  _ <- emit EvMaxItems ;;
  let ids := matched_storage_ids (state it) in
  counts <- (if is_dense (state it)
             then mapM (table_entity_count (world it)) ids
             else mapM (archetype_len (world it)) ids) ;;
  ret (match iter_max (map N.of_nat counts) with Some v => v | None => 0%N end).

Definition get_batch_size {D} (it : t D) (thread_count : N) : Exec N :=
  bs <- calc_batch_size (batching_strategy it) (max_items it) thread_count ;;
  ret (as_u32 bs).

(** [self.get_batch_size(thread_count).max(1)] *)
Definition parallel_batch_size {D} (it : t D) (thread_count : N) : Exec N :=
  bs <- get_batch_size it thread_count ;; ret (N.max bs 1).

Definition for_each_init {T D} (env : Env) (it : t D) (init : unit -> T)
    (func : T -> Entity -> T) : Exec (list T) :=
  if negb (multi_threaded env) then fold_sequential it init func
  else
    thread_count <- thread_num env ;;
    if (thread_count <=? 1)%N then fold_sequential it init func
    else
      batch_size <- parallel_batch_size it thread_count ;;
      par_fold_init_unchecked_manual init (world it) (state it) batch_size func
        (last_run it) (this_run it).

(** [batching_strategy(self, strategy)]: the iterator with its strategy
    replaced (named apart from the field of the same name). *)
Definition with_batching_strategy {D} (it : t D) (strategy : BatchingStrategy) : t D :=
  {| world := world it;
     state := state it;
     last_run := last_run it;
     this_run := this_run it;
     batching_strategy := strategy |}.

(** [for_each(func)] is [for_each_init(|| {}, |_, item| func(item))]; the
    calls of [func] are the [EvFold] events of the log. *)
Definition for_each {D} (env : Env) (it : t D) : Exec (list unit) :=
  for_each_init env it (fun _ => tt) (fun _ _ => tt).

End QueryParIter.

(* ------------------------------------------------------------------ *)
(** ** [QueryParManyIter] *)

Module QueryParManyIter.

Record t (D : QueryData) := {
  world : World;
  state : QueryState D;
  entity_list : list Entity;
  last_run : Tick;
  this_run : Tick;
  batching_strategy : BatchingStrategy
}.
Arguments world {D}.
Arguments state {D}.
Arguments entity_list {D}.
Arguments last_run {D}.
Arguments this_run {D}.
Arguments batching_strategy {D}.

(** The operations of the [impl] block carry its bound
    [D: ReadOnlyQueryData] as the instance argument [RO]. *)
Definition fold_sequential {T D} {RO : ReadOnlyQueryData D} (it : t D)
    (init : unit -> T) (func : T -> Entity -> T) : Exec (list T) :=
  _ <- emit EvInit ;;
  let acc0 := init tt in
  acc <- fold_m func acc0
           (iter_many_items (world it) (state it) (last_run it) (this_run it)
              (entity_list it)) ;;
  ret [acc].

Definition get_batch_size {D} {RO : ReadOnlyQueryData D} (it : t D) (thread_count : N)
    : Exec N :=
  bs <- calc_batch_size (batching_strategy it)
          (_ <- emit EvMaxItems ;; ret (N.of_nat (length (entity_list it))))
          thread_count ;;
  ret (as_u32 bs).

Definition parallel_batch_size {D} {RO : ReadOnlyQueryData D} (it : t D)
    (thread_count : N) : Exec N :=
  bs <- get_batch_size it thread_count ;; ret (N.max bs 1).

Definition for_each_init {T D} {RO : ReadOnlyQueryData D} (env : Env) (it : t D)
    (init : unit -> T) (func : T -> Entity -> T) : Exec (list T) :=
  if negb (multi_threaded env) then fold_sequential it init func
  else
    thread_count <- thread_num env ;;
    if (thread_count <=? 1)%N then fold_sequential it init func
    else
      batch_size <- parallel_batch_size it thread_count ;;
      par_many_fold init (world it) (state it) (entity_list it) batch_size func
        (last_run it) (this_run it).

(** The views the tasks of [par_many_fold] hand to the fold function. *)
Definition task_views {D} {RO : ReadOnlyQueryData D} (it : t D) (batch_size : N)
    : list (list View) :=
  map (fun batch => map (fun e => (e, qd_access D))
                        (iter_many_items (world it) (state it) (last_run it)
                           (this_run it) batch))
      (chunks batch_size (entity_list it) (length (entity_list it))).

(** [batching_strategy(self, strategy)]: the iterator with its strategy
    replaced (named apart from the field of the same name). *)
Definition with_batching_strategy {D} {RO : ReadOnlyQueryData D} (it : t D)
    (strategy : BatchingStrategy) : t D :=
  {| world := world it;
     state := state it;
     entity_list := entity_list it;
     last_run := last_run it;
     this_run := this_run it;
     batching_strategy := strategy |}.

(** [for_each(func)] is [for_each_init(|| {}, |_, item| func(item))]; the
    calls of [func] are the [EvFold] events of the log. *)
Definition for_each {D} {RO : ReadOnlyQueryData D} (env : Env) (it : t D) : Exec (list unit) :=
  for_each_init env it (fun _ => tt) (fun _ _ => tt).

End QueryParManyIter.

(* ------------------------------------------------------------------ *)
(** ** [QueryParManyUniqueIter] *)

Module QueryParManyUniqueIter.

Record t (D : QueryData) := {
  world : World;
  state : QueryState D;
  entity_list : UniqueEntityVec;
  last_run : Tick;
  this_run : Tick;
  batching_strategy : BatchingStrategy
}.
Arguments world {D}.
Arguments state {D}.
Arguments entity_list {D}.
Arguments last_run {D}.
Arguments this_run {D}.
Arguments batching_strategy {D}.

Definition fold_sequential {T D} (it : t D) (init : unit -> T) (func : T -> Entity -> T)
    : Exec (list T) :=
  _ <- emit EvInit ;;
  let acc0 := init tt in
  acc <- fold_m func acc0
           (iter_many_items (world it) (state it) (last_run it) (this_run it)
              (uev_list (entity_list it))) ;;
  ret [acc].

Definition get_batch_size {D} (it : t D) (thread_count : N) : Exec N :=
  bs <- calc_batch_size (batching_strategy it)
          (_ <- emit EvMaxItems ;; ret (N.of_nat (length (uev_list (entity_list it)))))
          thread_count ;;
  ret (as_u32 bs).

Definition parallel_batch_size {D} (it : t D) (thread_count : N) : Exec N :=
  bs <- get_batch_size it thread_count ;; ret (N.max bs 1).

Definition for_each_init {T D} (env : Env) (it : t D) (init : unit -> T)
    (func : T -> Entity -> T) : Exec (list T) :=
  if negb (multi_threaded env) then fold_sequential it init func
  else
    thread_count <- thread_num env ;;
    if (thread_count <=? 1)%N then fold_sequential it init func
    else
      batch_size <- parallel_batch_size it thread_count ;;
      par_many_fold init (world it) (state it) (uev_list (entity_list it)) batch_size
        func (last_run it) (this_run it).

Definition task_views {D} (it : t D) (batch_size : N) : list (list View) :=
  map (fun batch => map (fun e => (e, qd_access D))
                        (iter_many_items (world it) (state it) (last_run it)
                           (this_run it) batch))
      (chunks batch_size (uev_list (entity_list it)) (length (uev_list (entity_list it)))).

(** [batching_strategy(self, strategy)]: the iterator with its strategy
    replaced (named apart from the field of the same name). *)
Definition with_batching_strategy {D} (it : t D) (strategy : BatchingStrategy) : t D :=
  {| world := world it;
     state := state it;
     entity_list := entity_list it;
     last_run := last_run it;
     this_run := this_run it;
     batching_strategy := strategy |}.

(** [for_each(func)] is [for_each_init(|| {}, |_, item| func(item))]; the
    calls of [func] are the [EvFold] events of the log. *)
Definition for_each {D} (env : Env) (it : t D) : Exec (list unit) :=
  for_each_init env it (fun _ => tt) (fun _ _ => tt).

End QueryParManyUniqueIter.

(* ------------------------------------------------------------------ *)
(** ** Auxiliary definitions for the proofs *)

(** Every matched storage id indexes an existing table (dense) or
    archetype (sparse), as [QueryState] maintains. *)
Definition state_valid {D} (w : World) (q : QueryState D) : bool :=
  forallb (fun id => match storage_entities w q id with Some _ => true | None => false end)
    (matched_storage_ids q).

(** The items of a list of batches, batch after batch. *)
Fixpoint batches_items {D} (w : World) (q : QueryState D) (last_run this_run : Tick)
    (bl : list Batch) : option (list Entity) :=
  match bl with
  | [] => Some []
  | b :: rest =>
      match batch_items w q last_run this_run b, batches_items w q last_run this_run rest with
      | Some x, Some y => Some (x ++ y)
      | _, _ => None
      end
  end.

(** The entity counts of the matched storages. *)
Definition chunk_counts {D} (w : World) (q : QueryState D) : list nat :=
  map (fun id => match storage_entities w q id with Some es => length es | None => 0 end)
    (matched_storage_ids q).

(** The observable calls of a run, in order, or [None] for a panic. *)
Definition log_of {A} (m : Exec A) : option (list Event) := option_map snd m.

(** An event a spawned task or the sequential fold produces. *)
Definition is_task_event (ev : Event) : bool :=
  match ev with EvInit | EvFold _ => true | EvStrategy | EvMaxItems => false end.

(* ------------------------------------------------------------------ *)
(** ** Example configurations *)

(** Three tables of 3, 1 and 2 entities, mirrored by three archetypes. *)
Definition example_world : World :=
  {| tables := [[1; 2; 3]; [4]; [5; 6]]; archetypes := [[1; 2; 3]; [4]; [5; 6]] |}.

Definition mutable_data : QueryData := {| qd_access := MutableAccess |}.
Definition read_only_data : QueryData := {| qd_access := ReadOnlyAccess |}.

#[export] Instance read_only_data_read_only : ReadOnlyQueryData read_only_data.
Proof. reflexivity. Qed.

Definition example_state (D : QueryData) (dense : bool) (ids : list StorageId)
    : QueryState D :=
  {| matched_storage_ids := ids; is_dense := dense; matched_archetypes := ids;
     filter_fetch := fun _ _ e => negb (e =? 5) |}.

Definition example_par_iter (D : QueryData) (dense : bool) (ids : list StorageId)
    (s : BatchingStrategy) : QueryParIter.t D :=
  {| QueryParIter.world := example_world; QueryParIter.state := example_state D dense ids;
     QueryParIter.last_run := 0%N; QueryParIter.this_run := 1%N;
     QueryParIter.batching_strategy := s |}.

Definition example_many_iter (D : QueryData) (l : list Entity) (s : BatchingStrategy)
    : QueryParManyIter.t D :=
  {| QueryParManyIter.world := example_world;
     QueryParManyIter.state := example_state D false [0; 2];
     QueryParManyIter.entity_list := l;
     QueryParManyIter.last_run := 0%N; QueryParManyIter.this_run := 1%N;
     QueryParManyIter.batching_strategy := s |}.

Definition example_unique_list : UniqueEntityVec :=
  {| uev_list := [1; 4; 6]; uev_unique := ltac:(repeat constructor; simpl; intuition lia) |}.

Definition empty_unique_list : UniqueEntityVec :=
  {| uev_list := []; uev_unique := NoDup_nil _ |}.

Definition example_unique_iter (D : QueryData) (l : UniqueEntityVec) (s : BatchingStrategy)
    : QueryParManyUniqueIter.t D :=
  {| QueryParManyUniqueIter.world := example_world;
     QueryParManyUniqueIter.state := example_state D false [0; 2];
     QueryParManyUniqueIter.entity_list := l;
     QueryParManyUniqueIter.last_run := 0%N; QueryParManyUniqueIter.this_run := 1%N;
     QueryParManyUniqueIter.batching_strategy := s |}.

Definition fixed_strategy (n : N) : BatchingStrategy :=
  {| batch_size_override := Some n; batch_size_limits := (0%N, None);
     batches_per_thread := 1%positive |}.

Definition multi_threaded_env (threads : N) : Env :=
  {| multi_threaded := true; compute_task_pool := Some threads |}.

(** Collects the visited entities, newest first. *)
Definition collect (acc : list Entity) (e : Entity) : list Entity := e :: acc.

(* ------------------------------------------------------------------ *)
(** ** Lemmas on the execution monad *)

Lemma bind_Some {A B} (m : Exec A) (f : A -> Exec B) a l1 :
  m = Some (a, l1) ->
  bind m f = match f a with None => None | Some (b, l2) => Some (b, l1 ++ l2) end.
Proof. intros ->. reflexivity. Qed.

Lemma bind_ret_l {A B} (a : A) (f : A -> Exec B) : bind (ret a) f = f a.
Proof. unfold bind, ret. simpl. destruct (f a) as [[b l]|]; reflexivity. Qed.

Lemma folded_app l1 l2 : folded (l1 ++ l2) = folded l1 ++ folded l2.
Proof.
  induction l1 as [|[] l1 IH]; simpl; try rewrite IH; reflexivity.
Qed.

Lemma folded_map_fold items : folded (map EvFold items) = items.
Proof. induction items; simpl; congruence. Qed.

Lemma fold_m_spec {T} (func : T -> Entity -> T) acc items :
  fold_m func acc items = Some (fold_left func items acc, map EvFold items).
Proof.
  revert acc. induction items as [|e r IH]; intros acc; simpl; [reflexivity|].
  unfold bind, emit. rewrite IH. reflexivity.
Qed.

(* ------------------------------------------------------------------ *)
(** ** Lemmas on batching *)

Lemma firstn_add_skipn {A} (a b : nat) (l : list A) :
  firstn (a + b) l = firstn a l ++ firstn b (skipn a l).
Proof.
  revert l. induction a as [|a IH]; intros [|x l]; simpl; auto.
  - destruct b; reflexivity.
  - now rewrite IH.
Qed.

Lemma batch_items_app {D} (w : World) (q : QueryState D) lr tr b1 b2 x1 x2 :
  batch_items w q lr tr b1 = Some x1 -> batch_items w q lr tr b2 = Some x2 ->
  batch_items w q lr tr (b1 ++ b2) = Some (x1 ++ x2).
Proof.
  revert x1. induction b1 as [|r b1 IH]; intros x1 H1 H2; simpl in *.
  - inversion H1; subst. exact H2.
  - destruct (range_items w q lr tr r) as [y|]; [|discriminate].
    destruct (batch_items w q lr tr b1) as [z|] eqn:E; [|discriminate].
    inversion H1; subst. rewrite (IH z eq_refl H2). now rewrite app_assoc.
Qed.

Lemma batches_items_app {D} (w : World) (q : QueryState D) lr tr l1 l2 x1 x2 :
  batches_items w q lr tr l1 = Some x1 -> batches_items w q lr tr l2 = Some x2 ->
  batches_items w q lr tr (l1 ++ l2) = Some (x1 ++ x2).
Proof.
  revert x1. induction l1 as [|b l1 IH]; intros x1 H1 H2; simpl in *.
  - inversion H1; subst. exact H2.
  - destruct (batch_items w q lr tr b) as [y|]; [|discriminate].
    destruct (batches_items w q lr tr l1) as [z|] eqn:E; [|discriminate].
    inversion H1; subst. rewrite (IH z eq_refl H2). now rewrite app_assoc.
Qed.

Lemma split_ranges_items {D} (w : World) (q : QueryState D) lr tr id es bs :
  storage_entities w q id = Some es -> 0 < bs ->
  forall fuel off count, count <= fuel -> 0 < count ->
  batches_items w q lr tr (split_ranges id off count bs fuel)
  = Some (filter (filter_fetch q lr tr) (firstn count (skipn off es))).
Proof.
  intros Hes Hbs fuel. induction fuel as [|f IH]; intros off count Hc Hpos; [lia|].
  simpl. destruct (count <=? bs) eqn:E.
  - simpl. rewrite Hes. now rewrite !app_nil_r.
  - apply Nat.leb_gt in E. simpl. rewrite Hes.
    destruct (count - bs) as [|c'] eqn:Ec; [lia|].
    rewrite <- Ec. rewrite IH by lia.
    replace count with (bs + (count - bs)) at 2 by lia.
    rewrite firstn_add_skipn, skipn_skipn, filter_app, app_nil_r.
    now replace (bs + off) with (off + bs) by lia.
Qed.

Lemma flush_items {D} (w : World) (q : QueryState D) lr tr queue qi :
  batch_items w q lr tr queue = Some qi ->
  batches_items w q lr tr (flush queue) = Some qi.
Proof.
  destruct queue as [|r rest]; simpl.
  - intros H; inversion H; reflexivity.
  - intros H. cbn [batch_items] in H. rewrite H. now rewrite app_nil_r.
Qed.

Lemma whole_range_items {D} (w : World) (q : QueryState D) lr tr id es :
  storage_entities w q id = Some es ->
  batch_items w q lr tr [(id, 0, length es)] = Some (filter (filter_fetch q lr tr) es).
Proof.
  intros H. simpl. rewrite H. now rewrite firstn_all, app_nil_r.
Qed.

Lemma plan_batches_items {D} (w : World) (q : QueryState D) lr tr bs :
  (1 <= bs)%N ->
  forall ids queue qc qi,
  forallb (fun id => match storage_entities w q id with Some _ => true | None => false end)
    ids = true ->
  batch_items w q lr tr queue = Some qi ->
  exists bl items si,
    plan_batches w q bs ids queue qc = Some bl /\
    batches_items w q lr tr bl = Some items /\
    storages_items w q lr tr ids = Some si /\
    Permutation items (qi ++ si).
Proof.
  intros Hbs ids. induction ids as [|id rest IH]; intros queue qc qi Hv Hq.
  - exists (flush queue), qi, []. simpl. repeat split; auto using flush_items.
    now rewrite app_nil_r.
  - simpl in Hv. destruct (storage_entities w q id) as [es|] eqn:Hes; [|discriminate].
    simpl in Hv. simpl. rewrite Hes.
    destruct (length es =? 0) eqn:E0.
    + apply Nat.eqb_eq, length_zero_iff_nil in E0. subst es.
      destruct (IH queue qc qi Hv Hq) as (bl & items & si & Hp & Hi & Hs & Hperm).
      exists bl, items, si. rewrite Hp, Hs. repeat split; auto.
    + apply Nat.eqb_neq in E0.
      destruct ((bs <=? N.of_nat (length es))%N) eqn:Eb.
      * destruct (IH queue qc qi Hv Hq) as (bl & items & si & Hp & Hi & Hs & Hperm).
        apply N.leb_le in Eb.
        exists (split_ranges id 0 (length es) (N.to_nat bs) (length es) ++ bl),
               (filter (filter_fetch q lr tr) es ++ items),
               (filter (filter_fetch q lr tr) es ++ si).
        rewrite Hp, Hs. repeat split.
        -- apply batches_items_app; [|exact Hi].
           rewrite (split_ranges_items w q lr tr id es) by (auto; lia).
           now rewrite firstn_all.
        -- rewrite Permutation_app_swap_app. now apply Permutation_app_head.
      * destruct ((qc + N.of_nat (length es) <=? bs)%N) eqn:Eq.
        -- destruct (IH (queue ++ [(id, 0, length es)]) (qc + N.of_nat (length es))%N
                       (qi ++ filter (filter_fetch q lr tr) es) Hv)
             as (bl & items & si & Hp & Hi & Hs & Hperm).
           { apply batch_items_app; [exact Hq|]. apply whole_range_items. exact Hes. }
           exists bl, items, (filter (filter_fetch q lr tr) es ++ si).
           rewrite Hp, Hs. repeat split; auto.
           now rewrite <- app_assoc in Hperm.
        -- destruct (IH [(id, 0, length es)] (N.of_nat (length es))
                       (filter (filter_fetch q lr tr) es) Hv)
             as (bl & items & si & Hp & Hi & Hs & Hperm).
           { apply whole_range_items. exact Hes. }
           exists (flush queue ++ bl), (qi ++ items),
                  (filter (filter_fetch q lr tr) es ++ si).
           rewrite Hp, Hs. repeat split.
           ++ apply batches_items_app; auto using flush_items.
           ++ apply Permutation_app_head. exact Hperm.
Qed.

Lemma run_tasks_folded {T D} (w : World) (q : QueryState D) lr tr
    (init : unit -> T) (func : T -> Entity -> T) :
  forall bl items, batches_items w q lr tr bl = Some items ->
  exists accs log,
    mapM (run_task w q lr tr init func) bl = Some (accs, log) /\
    folded log = items /\ length accs = length bl.
Proof.
  intros bl. induction bl as [|b bl IH]; intros items H; simpl in H.
  - inversion H; subst. exists [], []. repeat split.
  - destruct (batch_items w q lr tr b) as [x|] eqn:Eb; [|discriminate].
    destruct (batches_items w q lr tr bl) as [y|] eqn:Ey; [|discriminate].
    inversion H; subst.
    destruct (IH y eq_refl) as (accs & log & Hm & Hf & Hl).
    exists (fold_left func x (init tt) :: accs), (EvInit :: map EvFold x ++ log).
    assert (Hr : run_task w q lr tr init func b
                 = Some (fold_left func x (init tt), EvInit :: map EvFold x)).
    { unfold run_task, bind, emit, lift, ret. rewrite Eb, fold_m_spec. reflexivity. }
    cbn [mapM]. rewrite (bind_Some _ _ _ _ Hr). cbv beta.
    rewrite (bind_Some _ _ _ _ Hm). simpl. repeat split.
    + now rewrite app_nil_r.
    + simpl. now rewrite folded_app, folded_map_fold, Hf.
    + simpl. now rewrite Hl.
Qed.

(* ------------------------------------------------------------------ *)
(** ** Lemmas on the batch size *)

Lemma calc_batch_size_log s (sup : Exec N) m ls tc :
  sup = Some (m, ls) ->
  exists r, calc_batch_size s sup tc
            = Some (r, EvStrategy :: match batch_size_override s with
                                     | Some _ => []
                                     | None => ls
                                     end).
Proof.
  intros ->. unfold calc_batch_size, bind, emit, ret.
  destruct (batch_size_override s) as [n|].
  - now exists n.
  - destruct (batch_size_limits s) as [mn mx]. eexists. rewrite app_nil_r. reflexivity.
Qed.

Lemma storage_counts_ok {D} (w : World) (q : QueryState D) ids :
  forallb (fun id => match storage_entities w q id with Some _ => true | None => false end)
    ids = true ->
  (if is_dense q then mapM (table_entity_count w) ids else mapM (archetype_len w) ids)
  = Some (map (fun id => match storage_entities w q id with
                         | Some es => length es
                         | None => 0
                         end) ids, []).
Proof.
  unfold storage_entities. destruct (is_dense q).
  - induction ids as [|id rest IH]; intros Hv; [reflexivity|].
    simpl in Hv. apply andb_prop in Hv as [H1 H2].
    cbn [mapM map]. destruct (nth_error (tables w) id) as [es|] eqn:E; [|discriminate].
    assert (Hx : table_entity_count w id = Some (length es, [])) by (unfold table_entity_count; now rewrite E).
    rewrite (bind_Some _ _ _ _ Hx). cbv beta.
    rewrite (bind_Some _ _ _ _ (IH H2)). reflexivity.
  - induction ids as [|id rest IH]; intros Hv; [reflexivity|].
    simpl in Hv. apply andb_prop in Hv as [H1 H2].
    cbn [mapM map]. destruct (nth_error (archetypes w) id) as [es|] eqn:E; [|discriminate].
    assert (Hx : archetype_len w id = Some (length es, [])) by (unfold archetype_len; now rewrite E).
    rewrite (bind_Some _ _ _ _ Hx). cbv beta.
    rewrite (bind_Some _ _ _ _ (IH H2)). reflexivity.
Qed.

Lemma max_items_ok {D} (it : QueryParIter.t D) :
  state_valid (QueryParIter.world it) (QueryParIter.state it) = true ->
  QueryParIter.max_items it
  = Some (match iter_max (map N.of_nat (chunk_counts (QueryParIter.world it)
                                                     (QueryParIter.state it))) with
          | Some v => v
          | None => 0%N
          end, [EvMaxItems]).
Proof.
  intros Hv. unfold QueryParIter.max_items.
  rewrite (bind_Some (emit EvMaxItems) _ tt [EvMaxItems] eq_refl). cbv beta.
  rewrite (bind_Some _ _ _ _ (storage_counts_ok _ _ _ Hv)). reflexivity.
Qed.

Lemma par_iter_batch_size_ok {D} (it : QueryParIter.t D) tc :
  state_valid (QueryParIter.world it) (QueryParIter.state it) = true ->
  exists b l, QueryParIter.parallel_batch_size it tc = Some (b, l) /\
              folded l = [] /\ (1 <= b)%N.
Proof.
  intros Hv.
  destruct (calc_batch_size_log (QueryParIter.batching_strategy it)
              (QueryParIter.max_items it) _ _ tc (max_items_ok it Hv)) as [r Hr].
  unfold QueryParIter.parallel_batch_size, QueryParIter.get_batch_size.
  rewrite (bind_Some _ _ _ _ Hr). simpl.
  eexists _, _. split; [reflexivity|]. split; [|lia].
  destruct (batch_size_override _); reflexivity.
Qed.

Lemma fold_sequential_ok {T D} (it : QueryParIter.t D) (init : unit -> T) func items :
  query_items (QueryParIter.world it) (QueryParIter.state it)
    (QueryParIter.last_run it) (QueryParIter.this_run it) = Some items ->
  QueryParIter.fold_sequential it init func
  = Some ([fold_left func items (init tt)], EvInit :: map EvFold items).
Proof.
  intros H. unfold QueryParIter.fold_sequential, bind, emit, lift, ret.
  rewrite H, fold_m_spec. simpl. now rewrite app_nil_r.
Qed.

Lemma query_items_valid {D} (w : World) (q : QueryState D) lr tr :
  state_valid w q = true -> exists items, query_items w q lr tr = Some items.
Proof.
  unfold state_valid, query_items. generalize (matched_storage_ids q) as ids.
  induction ids as [|id rest IH]; simpl; intros Hv; [eauto|].
  apply andb_prop in Hv as [H1 H2].
  destruct (storage_entities w q id); [|discriminate].
  destruct (IH H2) as [r ->]. eauto.
Qed.

Lemma iter_max_acc (l : list N) (a : N) :
  exists v, fold_left (fun acc x => match acc with
                                    | None => Some x
                                    | Some m => Some (N.max m x)
                                    end) l (Some a) = Some v /\
            In v (a :: l) /\ forall x, In x (a :: l) -> (x <= v)%N.
Proof.
  revert a. induction l as [|x l IH]; intros a; simpl.
  - exists a. split; [reflexivity|]. split; [left; reflexivity|]. intros y [->|[]]. lia.
  - destruct (IH (N.max a x)) as (v & Hv & Hin & Hle). exists v. split; [exact Hv|].
    split.
    + destruct Hin as [Hm|Hin]; [|simpl; tauto].
      destruct (N.max_spec a x) as [[_ E]|[_ E]]; rewrite E in Hm; subst; simpl; tauto.
    + intros y [<-|[<-|Hy]].
      * specialize (Hle _ (or_introl eq_refl)). lia.
      * specialize (Hle _ (or_introl eq_refl)). lia.
      * apply Hle. simpl. tauto.
Qed.

Lemma iter_max_spec (l : list N) :
  (l = [] /\ iter_max l = None) \/
  (exists v, iter_max l = Some v /\ In v l /\ forall x, In x l -> (x <= v)%N).
Proof.
  destruct l as [|a l]; [left; auto|right]. unfold iter_max. simpl.
  apply iter_max_acc.
Qed.

Lemma max_one_positive (m : Exec N) b l :
  (bs <- m ;; ret (N.max bs 1)) = Some (b, l) -> (1 <= b)%N.
Proof.
  unfold bind, ret. destruct m as [[bs l1]|]; [|discriminate].
  intros H. inversion H. lia.
Qed.

Lemma parallel_branch {A} (env : Env) (tc : N) (seq : Exec A) (par : N -> Exec A) :
  multi_threaded env = true -> compute_task_pool env = Some tc -> (1 < tc)%N ->
  (if negb (multi_threaded env) then seq
   else thread_count <- thread_num env ;;
        if (thread_count <=? 1)%N then seq else par thread_count) = par tc.
Proof.
  intros Hmt Hpool Htc. rewrite Hmt. simpl negb. cbv iota.
  unfold thread_num. rewrite Hpool. cbn [lift]. rewrite bind_ret_l.
  destruct (N.leb_spec tc 1); [lia|reflexivity].
Qed.

Lemma ceil_div_spec (a b : N) :
  (0 < b)%N -> (a <= ceil_div a b * b < a + b)%N.
Proof.
  intros Hb. unfold ceil_div.
  pose proof (N.div_mod (a + b - 1) b ltac:(lia)) as Hdm.
  pose proof (N.mod_lt (a + b - 1) b ltac:(lia)) as Hlt.
  set (c := ((a + b - 1) / b)%N) in *. set (r := ((a + b - 1) mod b)%N) in *.
  nia.
Qed.

Lemma chunks_concat {A} (bs : N) (l : list A) :
  (1 <= bs)%N -> forall fuel, length l <= fuel -> concat (chunks bs l fuel) = l.
Proof.
  intros Hbs fuel. revert l. induction fuel as [|f IH]; intros l Hl.
  - destruct l; [reflexivity|simpl in Hl; lia].
  - destruct l as [|x r]; [reflexivity|].
    cbn [chunks]. destruct ((N.of_nat (length (x :: r)) <=? bs)%N) eqn:E.
    + simpl. now rewrite app_nil_r.
    + apply N.leb_gt in E. cbn [concat]. rewrite IH.
      * apply firstn_skipn.
      * rewrite length_skipn. change (length (x :: r)) with (S (length r)) in *.
        assert (1 <= N.to_nat bs) by lia. lia.
Qed.

Lemma nodup_app_disjoint {A} (l1 l2 : list A) x :
  NoDup (l1 ++ l2) -> In x l1 -> In x l2 -> False.
Proof.
  induction l1 as [|a l1 IH]; intros Hnd H1 H2; [destruct H1|].
  simpl in Hnd. inversion Hnd as [|? ? Hnin Hnd']; subst.
  destruct H1 as [<-|H1].
  - apply Hnin, in_or_app. now right.
  - exact (IH Hnd' H1 H2).
Qed.

Lemma nodup_concat_disjoint {A} (L : list (list A)) :
  NoDup (concat L) ->
  forall i j a b x, i <> j -> nth_error L i = Some a -> nth_error L j = Some b ->
  In x a -> In x b -> False.
Proof.
  induction L as [|c L IH]; intros Hnd i j a b x Hij Ha Hb Hxa Hxb.
  - destruct i; discriminate.
  - simpl in Hnd. apply NoDup_app_remove_l in Hnd as Hnd'.
    destruct i as [|i], j as [|j]; simpl in Ha, Hb; try lia.
    + inversion Ha; subst. apply nth_error_In in Hb.
      apply (nodup_app_disjoint _ _ x Hnd Hxa). apply in_concat. eauto.
    + inversion Hb; subst. apply nth_error_In in Ha.
      apply (nodup_app_disjoint _ _ x Hnd Hxb). apply in_concat. eauto.
    + eapply IH; [exact Hnd'| | exact Ha | exact Hb | exact Hxa | exact Hxb]. lia.
Qed.

Lemma branch_cases {A} (env : Env) (seq : Exec A) (par : N -> Exec A) :
  (multi_threaded env = true -> compute_task_pool env <> None) ->
  (if negb (multi_threaded env) then seq
   else thread_count <- thread_num env ;;
        if (thread_count <=? 1)%N then seq else par thread_count) = seq \/
  exists tc, (1 < tc)%N /\
  (if negb (multi_threaded env) then seq
   else thread_count <- thread_num env ;;
        if (thread_count <=? 1)%N then seq else par thread_count) = par tc.
Proof.
  intros Hinit. destruct (multi_threaded env) eqn:Hmt; [|left; reflexivity].
  destruct (compute_task_pool env) as [tc|] eqn:Hpool; [|now destruct Hinit].
  simpl negb. cbv iota. unfold thread_num. rewrite Hpool. cbn [lift]. rewrite bind_ret_l.
  destruct (N.leb_spec tc 1); [left; reflexivity|right; exists tc; split; auto].
Qed.

(* ------------------------------------------------------------------ *)
(** ** Claims *)

(** C1: on the parallel path of [QueryParIter::for_each_init] (thread
    count above 1), the multiset of items the fold function is applied
    to equals that of the sequential path, a single fold over the
    iterator of [query_unchecked_manual_with_ticks] with the same world,
    state and ticks; only the visit order may differ. *)
Theorem par_iter_visits_same_multiset {T D} (env : Env) (it : QueryParIter.t D)
    (init : unit -> T) (func : T -> Entity -> T) (tc : N) :
  multi_threaded env = true -> compute_task_pool env = Some tc -> (1 < tc)%N ->
  state_valid (QueryParIter.world it) (QueryParIter.state it) = true ->
  exists accs_par log_par accs_seq log_seq,
    QueryParIter.for_each_init env it init func = Some (accs_par, log_par) /\
    QueryParIter.fold_sequential it init func = Some (accs_seq, log_seq) /\
    Permutation (folded log_par) (folded log_seq).
Proof.
  intros Hmt Hpool Htc Hv.
  destruct (query_items_valid _ _ (QueryParIter.last_run it) (QueryParIter.this_run it) Hv)
    as [si Hsi].
  destruct (par_iter_batch_size_ok it tc Hv) as (b & lb & Hb & Hfb & Hb1).
  destruct (plan_batches_items (QueryParIter.world it) (QueryParIter.state it)
              (QueryParIter.last_run it) (QueryParIter.this_run it) b Hb1
              (matched_storage_ids (QueryParIter.state it)) [] 0%N [] Hv eq_refl)
    as (bl & items & si' & Hp & Hi & Hs & Hperm).
  unfold query_items in Hsi. rewrite Hsi in Hs. inversion Hs; subst si'.
  destruct (run_tasks_folded (QueryParIter.world it) (QueryParIter.state it)
              (QueryParIter.last_run it) (QueryParIter.this_run it) init func bl items Hi)
    as (accs & log & Hm & Hf & _).
  unfold QueryParIter.for_each_init. rewrite Hmt. simpl negb. cbv iota.
  unfold thread_num. rewrite Hpool. cbn [lift]. rewrite bind_ret_l.
  destruct (N.leb_spec tc 1) as [Hle|_]; [lia|].
  rewrite (bind_Some _ _ _ _ Hb). unfold par_fold_init_unchecked_manual.
  rewrite Hp. cbn [lift]. rewrite bind_ret_l. rewrite Hm.
  rewrite (fold_sequential_ok it init func si Hsi).
  do 4 eexists. split; [reflexivity|]. split; [reflexivity|].
  rewrite folded_app, Hfb, Hf. simpl. now rewrite folded_map_fold.
Qed.

(** Witness of C1: four tasks on a dense query over three tables. *)
Lemma par_iter_visits_same_multiset_witness :
  multi_threaded (multi_threaded_env 2) = true /\
  compute_task_pool (multi_threaded_env 2) = Some 2%N /\ (1 < 2)%N /\
  state_valid example_world (example_state mutable_data true [0; 1; 2]) = true /\
  exists accs_par log_par accs_seq log_seq,
    QueryParIter.for_each_init (multi_threaded_env 2)
      (example_par_iter mutable_data true [0; 1; 2] default_strategy)
      (fun _ => []) collect = Some (accs_par, log_par) /\
    QueryParIter.fold_sequential
      (example_par_iter mutable_data true [0; 1; 2] default_strategy)
      (fun _ => []) collect = Some (accs_seq, log_seq) /\
    Permutation (folded log_par) (folded log_seq).
Proof.
  split; [reflexivity|]. split; [reflexivity|]. split; [reflexivity|].
  split; [reflexivity|].
  apply (par_iter_visits_same_multiset (multi_threaded_env 2)
           (example_par_iter mutable_data true [0; 1; 2] default_strategy)
           (fun _ => []) collect 2%N); reflexivity.
Defined.

(** C2: whenever the pool reports at most one thread, [for_each_init]
    of each of the three iterators runs the sequential fold: [init] is
    called exactly once, the fold function is applied to the items of
    the sequential iterator in order, and neither the batching strategy
    nor the max-items supplier is consulted (no [EvStrategy] or
    [EvMaxItems] in the log). *)
Theorem for_each_init_single_thread_sequential {T D Dr} {RO : ReadOnlyQueryData Dr}
    (env : Env) (tc : N) (it : QueryParIter.t D) (itm : QueryParManyIter.t Dr)
    (itu : QueryParManyUniqueIter.t D) (init : unit -> T) (func : T -> Entity -> T) :
  compute_task_pool env = Some tc -> (tc <= 1)%N ->
  QueryParIter.for_each_init env it init func
  = option_map (fun items => ([fold_left func items (init tt)], EvInit :: map EvFold items))
      (query_items (QueryParIter.world it) (QueryParIter.state it)
         (QueryParIter.last_run it) (QueryParIter.this_run it)) /\
  (let items := iter_many_items (QueryParManyIter.world itm) (QueryParManyIter.state itm)
                  (QueryParManyIter.last_run itm) (QueryParManyIter.this_run itm)
                  (QueryParManyIter.entity_list itm) in
   QueryParManyIter.for_each_init env itm init func
   = Some ([fold_left func items (init tt)], EvInit :: map EvFold items)) /\
  (let items := iter_many_items (QueryParManyUniqueIter.world itu)
                  (QueryParManyUniqueIter.state itu) (QueryParManyUniqueIter.last_run itu)
                  (QueryParManyUniqueIter.this_run itu)
                  (uev_list (QueryParManyUniqueIter.entity_list itu)) in
   QueryParManyUniqueIter.for_each_init env itu init func
   = Some ([fold_left func items (init tt)], EvInit :: map EvFold items)).
Proof.
  intros Hpool Htc.
  assert (Hbr : forall (A : Type) (seq : Exec A) (par : N -> Exec A),
             (if negb (multi_threaded env) then seq
              else thread_count <- thread_num env ;;
                   if (thread_count <=? 1)%N then seq else par thread_count) = seq).
  { intros A sq par. destruct (multi_threaded env); [|reflexivity]. simpl negb. cbv iota.
    unfold thread_num. rewrite Hpool. cbn [lift]. rewrite bind_ret_l.
    apply N.leb_le in Htc. now rewrite Htc. }
  repeat split.
  - unfold QueryParIter.for_each_init.
    rewrite (Hbr _ _ (fun thread_count =>
       batch_size <- QueryParIter.parallel_batch_size it thread_count ;;
       par_fold_init_unchecked_manual init (QueryParIter.world it) (QueryParIter.state it)
         batch_size func (QueryParIter.last_run it) (QueryParIter.this_run it))).
    destruct (query_items _ _ _ _) as [items|] eqn:E.
    + now rewrite (fold_sequential_ok it init func items E).
    + unfold QueryParIter.fold_sequential, bind, emit, lift. now rewrite E.
  - cbv zeta. unfold QueryParManyIter.for_each_init.
    rewrite (Hbr _ _ (fun thread_count =>
       batch_size <- QueryParManyIter.parallel_batch_size itm thread_count ;;
       par_many_fold init (QueryParManyIter.world itm) (QueryParManyIter.state itm)
         (QueryParManyIter.entity_list itm) batch_size func
         (QueryParManyIter.last_run itm) (QueryParManyIter.this_run itm))).
    unfold QueryParManyIter.fold_sequential, bind, emit.
    rewrite fold_m_spec. simpl. now rewrite app_nil_r.
  - cbv zeta. unfold QueryParManyUniqueIter.for_each_init.
    rewrite (Hbr _ _ (fun thread_count =>
       batch_size <- QueryParManyUniqueIter.parallel_batch_size itu thread_count ;;
       par_many_fold init (QueryParManyUniqueIter.world itu) (QueryParManyUniqueIter.state itu)
         (uev_list (QueryParManyUniqueIter.entity_list itu)) batch_size func
         (QueryParManyUniqueIter.last_run itu) (QueryParManyUniqueIter.this_run itu))).
    unfold QueryParManyUniqueIter.fold_sequential, bind, emit.
    rewrite fold_m_spec. simpl. now rewrite app_nil_r.
Qed.

(** Witness of C2: a one-thread pool, on all three iterators. *)
Lemma for_each_init_single_thread_sequential_witness :
  compute_task_pool (multi_threaded_env 1) = Some 1%N /\ (1 <= 1)%N /\
  QueryParIter.for_each_init (multi_threaded_env 1)
    (example_par_iter mutable_data true [0; 1; 2] default_strategy) (fun _ => []) collect
  = Some ([[6; 4; 3; 2; 1]], [EvInit; EvFold 1; EvFold 2; EvFold 3; EvFold 4; EvFold 6]).
Proof.
  split; [reflexivity|]. split; [apply N.le_refl|].
  destruct (for_each_init_single_thread_sequential (multi_threaded_env 1) 1%N
              (example_par_iter mutable_data true [0; 1; 2] default_strategy)
              (example_many_iter read_only_data [1; 1] default_strategy)
              (example_unique_iter mutable_data example_unique_list default_strategy)
              (fun _ => []) collect eq_refl (N.le_refl 1)) as [H _].
  rewrite H. reflexivity.
Defined.

(** C3: the max-items estimate that [QueryParIter::get_batch_size]
    hands to the batching strategy is the largest entity count of a
    single matched storage (tables when the state is dense, archetypes
    otherwise, see [chunk_counts]), and 0 when nothing is matched. *)
Theorem par_iter_max_items_largest_chunk {D} (it : QueryParIter.t D) (tc : N) :
  state_valid (QueryParIter.world it) (QueryParIter.state it) = true ->
  exists m,
    QueryParIter.max_items it = Some (m, [EvMaxItems]) /\
    QueryParIter.get_batch_size it tc
    = (bs <- calc_batch_size (QueryParIter.batching_strategy it)
               (Some (m, [EvMaxItems])) tc ;; ret (as_u32 bs)) /\
    ((matched_storage_ids (QueryParIter.state it) = [] /\ m = 0%N) \/
     (In (N.to_nat m) (chunk_counts (QueryParIter.world it) (QueryParIter.state it)) /\
      forall c, In c (chunk_counts (QueryParIter.world it) (QueryParIter.state it)) ->
                c <= N.to_nat m)).
Proof.
  intros Hv. rewrite (max_items_ok it Hv).
  destruct (iter_max_spec (map N.of_nat (chunk_counts (QueryParIter.world it)
                                                      (QueryParIter.state it))))
    as [[Hnil Hn] | (v & Hs & Hin & Hle)].
  - rewrite Hn. exists 0%N. split; [reflexivity|]. split.
    + unfold QueryParIter.get_batch_size. now rewrite (max_items_ok it Hv), Hn.
    + left. split; [|reflexivity].
      apply map_eq_nil in Hnil. unfold chunk_counts in Hnil. now apply map_eq_nil in Hnil.
  - rewrite Hs. exists v. split; [reflexivity|]. split.
    + unfold QueryParIter.get_batch_size. now rewrite (max_items_ok it Hv), Hs.
    + right. apply in_map_iff in Hin as (c & <- & Hc). split.
      * now rewrite Nat2N.id.
      * intros c' Hc'. specialize (Hle (N.of_nat c') (in_map _ _ _ Hc')). lia.
Qed.

(** Witness of C3: the sparse query over archetypes 0 and 2 (3 and 2
    entities) estimates 3, not the total 5. *)
Lemma par_iter_max_items_largest_chunk_witness :
  state_valid example_world (example_state mutable_data false [0; 2]) = true /\
  QueryParIter.max_items (example_par_iter mutable_data false [0; 2] default_strategy)
  = Some (3%N, [EvMaxItems]).
Proof.
  split; [reflexivity|].
  destruct (par_iter_max_items_largest_chunk
              (example_par_iter mutable_data false [0; 2] default_strategy) 2%N eq_refl)
    as (m & Hm & _ & Hcase).
  rewrite Hm. destruct Hcase as [[Hnil _] | [Hin Hle]]; [discriminate|].
  simpl in Hin, Hle. specialize (Hle 3 (or_introl eq_refl)).
  destruct Hin as [E|[E|[]]]; f_equal; f_equal; lia.
Defined.

(** C4: on the parallel path of each of the three iterators the batch
    size handed to the dispatch helper is
    [get_batch_size(thread_count).max(1)], which is at least 1 whatever
    the strategy computed. *)
Theorem parallel_batch_size_at_least_one {T D Dr} {RO : ReadOnlyQueryData Dr}
    (env : Env) (tc : N) (it : QueryParIter.t D) (itm : QueryParManyIter.t Dr)
    (itu : QueryParManyUniqueIter.t D) (init : unit -> T) (func : T -> Entity -> T) :
  multi_threaded env = true -> compute_task_pool env = Some tc -> (1 < tc)%N ->
  QueryParIter.for_each_init env it init func
  = (b <- QueryParIter.parallel_batch_size it tc ;;
     par_fold_init_unchecked_manual init (QueryParIter.world it) (QueryParIter.state it) b
       func (QueryParIter.last_run it) (QueryParIter.this_run it)) /\
  QueryParManyIter.for_each_init env itm init func
  = (b <- QueryParManyIter.parallel_batch_size itm tc ;;
     par_many_fold init (QueryParManyIter.world itm) (QueryParManyIter.state itm)
       (QueryParManyIter.entity_list itm) b func
       (QueryParManyIter.last_run itm) (QueryParManyIter.this_run itm)) /\
  QueryParManyUniqueIter.for_each_init env itu init func
  = (b <- QueryParManyUniqueIter.parallel_batch_size itu tc ;;
     par_many_fold init (QueryParManyUniqueIter.world itu) (QueryParManyUniqueIter.state itu)
       (uev_list (QueryParManyUniqueIter.entity_list itu)) b func
       (QueryParManyUniqueIter.last_run itu) (QueryParManyUniqueIter.this_run itu)) /\
  (forall b l, QueryParIter.parallel_batch_size it tc = Some (b, l) -> (1 <= b)%N) /\
  (forall b l, QueryParManyIter.parallel_batch_size itm tc = Some (b, l) -> (1 <= b)%N) /\
  (forall b l, QueryParManyUniqueIter.parallel_batch_size itu tc = Some (b, l) -> (1 <= b)%N).
Proof.
  intros Hmt Hpool Htc. repeat split.
  - unfold QueryParIter.for_each_init. now rewrite (parallel_branch env tc) by assumption.
  - unfold QueryParManyIter.for_each_init. now rewrite (parallel_branch env tc) by assumption.
  - unfold QueryParManyUniqueIter.for_each_init.
    now rewrite (parallel_branch env tc) by assumption.
  - intros b l. apply max_one_positive.
  - intros b l. apply max_one_positive.
  - intros b l. apply max_one_positive.
Qed.

(** Witness of C4: with a fixed batch size of 0 the strategy yields 0,
    the value handed to the dispatch helper is 1. *)
Lemma parallel_batch_size_at_least_one_witness :
  multi_threaded (multi_threaded_env 4) = true /\
  compute_task_pool (multi_threaded_env 4) = Some 4%N /\ (1 < 4)%N /\
  QueryParIter.get_batch_size (example_par_iter mutable_data true [] (fixed_strategy 0)) 4
  = Some (0%N, [EvStrategy]) /\
  QueryParIter.parallel_batch_size (example_par_iter mutable_data true [] (fixed_strategy 0)) 4
  = Some (1%N, [EvStrategy]) /\
  (forall b l, QueryParManyIter.parallel_batch_size
                 (example_many_iter read_only_data [] (fixed_strategy 0)) 4 = Some (b, l) ->
               (1 <= b)%N).
Proof.
  destruct (parallel_batch_size_at_least_one (multi_threaded_env 4) 4%N
              (example_par_iter mutable_data true [] (fixed_strategy 0))
              (example_many_iter read_only_data [] (fixed_strategy 0))
              (example_unique_iter mutable_data empty_unique_list (fixed_strategy 0))
              (fun _ => @nil Entity) collect eq_refl eq_refl eq_refl)
    as (_ & _ & _ & _ & Hm & _).
  split; [reflexivity|]. split; [reflexivity|]. split; [reflexivity|].
  split; [reflexivity|]. split; [reflexivity|]. exact Hm.
Defined.

(** C5: without an explicit batch size, [calc_batch_size] returns
    [max(min_limit, min(max_limit_or_unbounded, c))] with [c] the ceiling
    of [max_items / (thread_count * batches_per_thread)]; with one batch
    per thread, unbounded limits, 4 threads and 100 items it returns 25. *)
Theorem calc_batch_size_ceil_formula :
  calc_batch_size default_strategy (ret 100%N) 4 = Some (25%N, [EvStrategy]) /\
  forall (s : BatchingStrategy) (sup : Exec N) (m : N) (ls : list Event) (tc : N),
  batch_size_override s = None -> (0 < tc)%N -> sup = Some (m, ls) ->
  exists c,
    calc_batch_size s sup tc
    = Some (N.max (fst (batch_size_limits s))
              (match snd (batch_size_limits s) with
               | None => c
               | Some mx => N.min mx c
               end), EvStrategy :: ls) /\
    (m <= c * (tc * Npos (batches_per_thread s)) < m + tc * Npos (batches_per_thread s))%N.
Proof.
  split; [reflexivity|].
  intros s sup m ls tc Hov Htc Hsup.
  exists (ceil_div m (tc * Npos (batches_per_thread s))). split.
  - subst sup. unfold calc_batch_size, bind, emit, ret. rewrite Hov.
    destruct (batch_size_limits s) as [mn mx]. simpl. now rewrite app_nil_r.
  - apply ceil_div_spec. lia.
Qed.

(** Witness of C5: 10 items over 3 threads with 2 batches per thread
    and limits [(1, 100)]: the ceiling of 10 / 6 is 2. *)
Lemma calc_batch_size_ceil_formula_witness :
  batch_size_override {| batch_size_override := None; batch_size_limits := (1%N, Some 100%N);
                         batches_per_thread := 2%positive |} = None /\ (0 < 3)%N /\
  exists c,
    calc_batch_size {| batch_size_override := None; batch_size_limits := (1%N, Some 100%N);
                       batches_per_thread := 2%positive |} (ret 10%N) 3
    = Some (N.max 1 (N.min 100 c), [EvStrategy]) /\ (10 <= c * 6 < 16)%N.
Proof.
  split; [reflexivity|]. split; [reflexivity|].
  destruct calc_batch_size_ceil_formula as [_ H].
  exact (H {| batch_size_override := None; batch_size_limits := (1%N, Some 100%N);
              batches_per_thread := 2%positive |} (ret 10%N) 10%N [] 3%N
           eq_refl eq_refl eq_refl).
Defined.

(** C6: with an explicit batch size the strategy returns it for every
    supplier (one that panics included) and thread count, without
    invoking the supplier; in general the supplier's effects occur at
    most once, and only when no explicit batch size is set. *)
Theorem calc_batch_size_override_lazy :
  (forall (s : BatchingStrategy) (n : N), batch_size_override s = Some n ->
   forall (sup : Exec N) (tc : N), calc_batch_size s sup tc = Some (n, [EvStrategy])) /\
  (forall (s : BatchingStrategy) (sup : Exec N) (tc r : N) (log : list Event),
   calc_batch_size s sup tc = Some (r, log) ->
   (batch_size_override s <> None /\ log = [EvStrategy]) \/
   (batch_size_override s = None /\
    exists m ls, sup = Some (m, ls) /\ log = EvStrategy :: ls)).
Proof.
  split.
  - intros s n Hov sup tc. unfold calc_batch_size, bind, emit. rewrite Hov. reflexivity.
  - intros s sup tc r log. unfold calc_batch_size, bind, emit.
    destruct (batch_size_override s) as [n|] eqn:Hov.
    + intros H. inversion H. left. split; [discriminate|reflexivity].
    + destruct sup as [[m ls]|]; [|discriminate].
      destruct (batch_size_limits s) as [mn mx].
      intros H. inversion H. right. split; [reflexivity|].
      exists m, ls. split; [reflexivity|]. simpl. now rewrite app_nil_r.
Qed.

(** Witness of C6: a fixed batch size of 7 with a panicking supplier. *)
Lemma calc_batch_size_override_lazy_witness :
  batch_size_override (fixed_strategy 7) = Some 7%N /\
  calc_batch_size (fixed_strategy 7) None 16 = Some (7%N, [EvStrategy]).
Proof.
  split; [reflexivity|].
  destruct calc_batch_size_override_lazy as [H _].
  exact (H (fixed_strategy 7) 7%N eq_refl None 16%N).
Defined.

(** C7: for the entity-list iterators the batch size is computed by
    the strategy from the length of the entity list and the thread count
    alone: two iterators with the same strategy and list length get the
    same batch size whatever their world and query state. *)
Theorem many_batch_size_from_list_length {Dr D} {RO : ReadOnlyQueryData Dr} (tc : N) :
  (forall itm : QueryParManyIter.t Dr,
   QueryParManyIter.get_batch_size itm tc
   = (bs <- calc_batch_size (QueryParManyIter.batching_strategy itm)
              (Some (N.of_nat (length (QueryParManyIter.entity_list itm)), [EvMaxItems]))
              tc ;; ret (as_u32 bs))) /\
  (forall itu : QueryParManyUniqueIter.t D,
   QueryParManyUniqueIter.get_batch_size itu tc
   = (bs <- calc_batch_size (QueryParManyUniqueIter.batching_strategy itu)
              (Some (N.of_nat (length (uev_list (QueryParManyUniqueIter.entity_list itu))),
                     [EvMaxItems]))
              tc ;; ret (as_u32 bs))) /\
  (forall itm1 itm2 : QueryParManyIter.t Dr,
   length (QueryParManyIter.entity_list itm1) = length (QueryParManyIter.entity_list itm2) ->
   QueryParManyIter.batching_strategy itm1 = QueryParManyIter.batching_strategy itm2 ->
   QueryParManyIter.get_batch_size itm1 tc = QueryParManyIter.get_batch_size itm2 tc) /\
  (forall itu1 itu2 : QueryParManyUniqueIter.t D,
   length (uev_list (QueryParManyUniqueIter.entity_list itu1))
   = length (uev_list (QueryParManyUniqueIter.entity_list itu2)) ->
   QueryParManyUniqueIter.batching_strategy itu1
   = QueryParManyUniqueIter.batching_strategy itu2 ->
   QueryParManyUniqueIter.get_batch_size itu1 tc
   = QueryParManyUniqueIter.get_batch_size itu2 tc).
Proof.
  repeat split.
  - intros itm1 itm2 Hl Hs. unfold QueryParManyIter.get_batch_size. now rewrite Hl, Hs.
  - intros itu1 itu2 Hl Hs. unfold QueryParManyUniqueIter.get_batch_size. now rewrite Hl, Hs.
Qed.

(** Witness of C7: lists [[1; 1]] and [[4; 6]] over different query
    states give the same batch size. *)
Lemma many_batch_size_from_list_length_witness :
  length (QueryParManyIter.entity_list (example_many_iter read_only_data [1; 1] default_strategy))
  = length (QueryParManyIter.entity_list
              {| QueryParManyIter.world := example_world;
                 QueryParManyIter.state := example_state read_only_data true [0; 1; 2];
                 QueryParManyIter.entity_list := [4; 6];
                 QueryParManyIter.last_run := 3%N; QueryParManyIter.this_run := 4%N;
                 QueryParManyIter.batching_strategy := default_strategy |}) /\
  QueryParManyIter.get_batch_size (example_many_iter read_only_data [1; 1] default_strategy) 2
  = QueryParManyIter.get_batch_size
      {| QueryParManyIter.world := example_world;
         QueryParManyIter.state := example_state read_only_data true [0; 1; 2];
         QueryParManyIter.entity_list := [4; 6];
         QueryParManyIter.last_run := 3%N; QueryParManyIter.this_run := 4%N;
         QueryParManyIter.batching_strategy := default_strategy |} 2.
Proof.
  split; [reflexivity|].
  destruct (many_batch_size_from_list_length (Dr := read_only_data) (D := mutable_data) 2%N)
    as (_ & _ & H & _).
  apply H; reflexivity.
Defined.

(** C8: the operations of [QueryParManyIter] need [D: ReadOnlyQueryData],
    which no mutable query data satisfies, so its tasks only hold
    read-only views and never alias mutably, duplicates in the list
    included; [QueryParManyUniqueIter] accepts any query data, mutable
    included, and its tasks never alias because the list has no
    duplicates. *)
Theorem many_iter_read_only_unique_iter_any_data :
  (forall D : QueryData, qd_access D = MutableAccess -> ~ ReadOnlyQueryData D) /\
  (forall (D : QueryData) {RO : ReadOnlyQueryData D} (itm : QueryParManyIter.t D) (bs : N),
   ~ aliasing_views (QueryParManyIter.task_views itm bs)) /\
  (forall (D : QueryData) (itu : QueryParManyUniqueIter.t D) (bs : N), (1 <= bs)%N ->
   ~ aliasing_views (QueryParManyUniqueIter.task_views itu bs)).
Proof.
  split; [|split].
  - intros D Hm RO. unfold ReadOnlyQueryData in RO. congruence.
  - intros D RO itm bs (i & j & ti & tj & e & a1 & a2 & _ & Hi & Hj & H1 & H2 & Hmut).
    unfold QueryParManyIter.task_views in Hi, Hj.
    apply nth_error_In, in_map_iff in Hi as (b1 & <- & _).
    apply nth_error_In, in_map_iff in Hj as (b2 & <- & _).
    apply in_map_iff in H1 as (e1 & E1 & _). apply in_map_iff in H2 as (e2 & E2 & _).
    inversion E1; inversion E2. unfold ReadOnlyQueryData in RO.
    destruct Hmut; congruence.
  - intros D itu bs Hbs (i & j & ti & tj & e & a1 & a2 & Hij & Hi & Hj & H1 & H2 & _).
    unfold QueryParManyUniqueIter.task_views in Hi, Hj.
    rewrite nth_error_map in Hi, Hj.
    destruct (nth_error (chunks bs (uev_list (QueryParManyUniqueIter.entity_list itu))
                (length (uev_list (QueryParManyUniqueIter.entity_list itu)))) i)
      as [ci|] eqn:Ei; [|discriminate].
    destruct (nth_error (chunks bs (uev_list (QueryParManyUniqueIter.entity_list itu))
                (length (uev_list (QueryParManyUniqueIter.entity_list itu)))) j)
      as [cj|] eqn:Ej; [|discriminate].
    simpl in Hi, Hj. inversion Hi; inversion Hj; subst.
    apply in_map_iff in H1 as (e1 & E1 & F1). apply in_map_iff in H2 as (e2 & E2 & F2).
    inversion E1; inversion E2; subst.
    unfold iter_many_items in F1, F2. apply filter_In in F1 as [F1 _].
    apply filter_In in F2 as [F2 _].
    assert (Hnd : NoDup (concat (chunks bs (uev_list (QueryParManyUniqueIter.entity_list itu))
                   (length (uev_list (QueryParManyUniqueIter.entity_list itu)))))).
    { rewrite chunks_concat; [apply uev_unique | exact Hbs | apply Nat.le_refl]. }
    exact (nodup_concat_disjoint _ Hnd i j ci cj _ Hij Ei Ej F1 F2).
Qed.

(** Witness of C8: the read-only list iterator over [[1; 1]] and the
    unique iterator over [[1; 4; 6]] with mutable data, batches of 1. *)
Lemma many_iter_read_only_unique_iter_any_data_witness :
  ~ ReadOnlyQueryData mutable_data /\
  ~ aliasing_views (QueryParManyIter.task_views
                      (example_many_iter read_only_data [1; 1] default_strategy) 1) /\
  (1 <= 1)%N /\
  ~ aliasing_views (QueryParManyUniqueIter.task_views
                      (example_unique_iter mutable_data example_unique_list default_strategy) 1).
Proof.
  destruct many_iter_read_only_unique_iter_any_data as (H1 & H2 & H3).
  split; [exact (H1 mutable_data eq_refl)|].
  split; [exact (H2 read_only_data _ _ 1%N)|].
  split; [apply N.le_refl|].
  exact (H3 mutable_data _ 1%N (N.le_refl 1)).
Defined.

(** C9: with no matched storage, or an empty entity list, each
    [for_each_init] returns normally (the pool being initialised, as its
    documented panic requires) without applying the fold function, and
    the max-items estimate of [QueryParIter] is 0 ([unwrap_or(0)]). *)
Theorem empty_input_returns_normally {T D Dr} {RO : ReadOnlyQueryData Dr} (env : Env)
    (it : QueryParIter.t D) (itm : QueryParManyIter.t Dr) (itu : QueryParManyUniqueIter.t D)
    (init : unit -> T) (func : T -> Entity -> T) :
  (multi_threaded env = true -> compute_task_pool env <> None) ->
  matched_storage_ids (QueryParIter.state it) = [] ->
  QueryParManyIter.entity_list itm = [] ->
  uev_list (QueryParManyUniqueIter.entity_list itu) = [] ->
  QueryParIter.max_items it = Some (0%N, [EvMaxItems]) /\
  (exists accs log, QueryParIter.for_each_init env it init func = Some (accs, log) /\
                    folded log = []) /\
  (exists accs log, QueryParManyIter.for_each_init env itm init func = Some (accs, log) /\
                    folded log = []) /\
  (exists accs log, QueryParManyUniqueIter.for_each_init env itu init func
                    = Some (accs, log) /\ folded log = []).
Proof.
  intros Hinit Hids Hl Hu.
  assert (Hv : state_valid (QueryParIter.world it) (QueryParIter.state it) = true).
  { unfold state_valid. now rewrite Hids. }
  split; [|split; [|split]].
  - rewrite (max_items_ok it Hv). unfold chunk_counts. now rewrite Hids.
  - unfold QueryParIter.for_each_init.
    destruct (branch_cases env (QueryParIter.fold_sequential it init func) (fun thread_count =>
       batch_size <- QueryParIter.parallel_batch_size it thread_count ;;
       par_fold_init_unchecked_manual init (QueryParIter.world it) (QueryParIter.state it)
         batch_size func (QueryParIter.last_run it) (QueryParIter.this_run it)) Hinit)
      as [-> | (tc & _ & ->)].
    + rewrite (fold_sequential_ok it init func []); [|unfold query_items; now rewrite Hids].
      do 2 eexists. split; reflexivity.
    + destruct (par_iter_batch_size_ok it tc Hv) as (b & l & Hb & Hf & _).
      rewrite (bind_Some _ _ _ _ Hb). unfold par_fold_init_unchecked_manual.
      rewrite Hids. simpl. do 2 eexists. split; [reflexivity|].
      now rewrite app_nil_r.
  - unfold QueryParManyIter.for_each_init.
    destruct (branch_cases env (QueryParManyIter.fold_sequential itm init func)
       (fun thread_count =>
       batch_size <- QueryParManyIter.parallel_batch_size itm thread_count ;;
       par_many_fold init (QueryParManyIter.world itm) (QueryParManyIter.state itm)
         (QueryParManyIter.entity_list itm) batch_size func
         (QueryParManyIter.last_run itm) (QueryParManyIter.this_run itm)) Hinit)
      as [-> | (tc & _ & ->)].
    + unfold QueryParManyIter.fold_sequential. rewrite Hl. do 2 eexists.
      split; reflexivity.
    + unfold QueryParManyIter.parallel_batch_size, QueryParManyIter.get_batch_size.
      rewrite Hl.
      destruct (calc_batch_size_log (QueryParManyIter.batching_strategy itm)
                  (_ <- emit EvMaxItems ;; ret (N.of_nat (length (@nil Entity)))) 0%N
                  [EvMaxItems] tc eq_refl) as [r Hr].
      rewrite (bind_Some _ _ _ _ Hr). simpl. do 2 eexists. split; [reflexivity|].
      destruct (batch_size_override _); reflexivity.
  - unfold QueryParManyUniqueIter.for_each_init.
    destruct (branch_cases env (QueryParManyUniqueIter.fold_sequential itu init func)
       (fun thread_count =>
       batch_size <- QueryParManyUniqueIter.parallel_batch_size itu thread_count ;;
       par_many_fold init (QueryParManyUniqueIter.world itu)
         (QueryParManyUniqueIter.state itu)
         (uev_list (QueryParManyUniqueIter.entity_list itu)) batch_size func
         (QueryParManyUniqueIter.last_run itu) (QueryParManyUniqueIter.this_run itu)) Hinit)
      as [-> | (tc & _ & ->)].
    + unfold QueryParManyUniqueIter.fold_sequential. rewrite Hu. do 2 eexists.
      split; reflexivity.
    + unfold QueryParManyUniqueIter.parallel_batch_size,
        QueryParManyUniqueIter.get_batch_size.
      rewrite Hu.
      destruct (calc_batch_size_log (QueryParManyUniqueIter.batching_strategy itu)
                  (_ <- emit EvMaxItems ;; ret (N.of_nat (length (@nil Entity)))) 0%N
                  [EvMaxItems] tc eq_refl) as [r Hr].
      rewrite (bind_Some _ _ _ _ Hr). simpl. do 2 eexists. split; [reflexivity|].
      destruct (batch_size_override _); reflexivity.
Qed.

(** Witness of C9: a four-thread pool, no matched storage, empty lists. *)
Lemma empty_input_returns_normally_witness :
  (multi_threaded (multi_threaded_env 4) = true ->
   compute_task_pool (multi_threaded_env 4) <> None) /\
  QueryParIter.max_items (example_par_iter mutable_data true [] default_strategy)
  = Some (0%N, [EvMaxItems]) /\
  exists accs log,
    QueryParIter.for_each_init (multi_threaded_env 4)
      (example_par_iter mutable_data true [] default_strategy) (fun _ => []) collect
    = Some (accs, log) /\ folded log = [].
Proof.
  assert (Hinit : multi_threaded (multi_threaded_env 4) = true ->
                  compute_task_pool (multi_threaded_env 4) <> None) by discriminate.
  destruct (empty_input_returns_normally (multi_threaded_env 4)
              (example_par_iter mutable_data true [] default_strategy)
              (example_many_iter read_only_data [] default_strategy)
              (example_unique_iter mutable_data empty_unique_list default_strategy)
              (fun _ => []) collect Hinit eq_refl eq_refl eq_refl) as (H1 & H2 & _).
  split; [exact Hinit|]. split; [exact H1|exact H2].
Defined.

(** C10: each [get_batch_size] casts the strategy's result with
    [as u32], so the batch size used is the computed one modulo 2^32; a
    computed 2^32 becomes 0 and only the caller's [max(1)] turns it
    into 1. *)
Theorem batch_size_cast_to_u32 :
  (forall D (it : QueryParIter.t D) (tc b : N) (l : list Event),
   calc_batch_size (QueryParIter.batching_strategy it) (QueryParIter.max_items it) tc
   = Some (b, l) ->
   QueryParIter.get_batch_size it tc = Some ((b mod 2 ^ 32)%N, l)) /\
  (forall D {RO : ReadOnlyQueryData D} (itm : QueryParManyIter.t D) (tc b : N)
          (l : list Event),
   calc_batch_size (QueryParManyIter.batching_strategy itm)
     (_ <- emit EvMaxItems ;; ret (N.of_nat (length (QueryParManyIter.entity_list itm)))) tc
   = Some (b, l) ->
   QueryParManyIter.get_batch_size itm tc = Some ((b mod 2 ^ 32)%N, l)) /\
  (forall D (itu : QueryParManyUniqueIter.t D) (tc b : N) (l : list Event),
   calc_batch_size (QueryParManyUniqueIter.batching_strategy itu)
     (_ <- emit EvMaxItems ;;
      ret (N.of_nat (length (uev_list (QueryParManyUniqueIter.entity_list itu))))) tc
   = Some (b, l) ->
   QueryParManyUniqueIter.get_batch_size itu tc = Some ((b mod 2 ^ 32)%N, l)) /\
  (calc_batch_size (fixed_strategy (2 ^ 32))
     (QueryParIter.max_items (example_par_iter mutable_data true [0] (fixed_strategy (2 ^ 32))))
     2 = Some ((2 ^ 32)%N, [EvStrategy]) /\
   QueryParIter.get_batch_size (example_par_iter mutable_data true [0] (fixed_strategy (2 ^ 32))) 2
   = Some (0%N, [EvStrategy]) /\
   QueryParIter.parallel_batch_size
     (example_par_iter mutable_data true [0] (fixed_strategy (2 ^ 32))) 2
   = Some (1%N, [EvStrategy])).
Proof.
  split; [|split; [|split]].
  - intros D it tc b l H. unfold QueryParIter.get_batch_size.
    rewrite (bind_Some _ _ _ _ H). simpl. now rewrite app_nil_r.
  - intros D RO itm tc b l H. unfold QueryParManyIter.get_batch_size.
    rewrite (bind_Some _ _ _ _ H). simpl. now rewrite app_nil_r.
  - intros D itu tc b l H. unfold QueryParManyUniqueIter.get_batch_size.
    rewrite (bind_Some _ _ _ _ H). simpl. now rewrite app_nil_r.
  - split; [reflexivity|]. split; reflexivity.
Qed.

(** Witness of C10: a read-only list iterator with a fixed batch size of
    2^32 + 3 uses 3. *)
Lemma batch_size_cast_to_u32_witness :
  calc_batch_size (fixed_strategy (2 ^ 32 + 3))
    (_ <- emit EvMaxItems ;; ret (N.of_nat (length (QueryParManyIter.entity_list
          (example_many_iter read_only_data [1; 4] (fixed_strategy (2 ^ 32 + 3))))))) 2
  = Some ((2 ^ 32 + 3)%N, [EvStrategy]) /\
  QueryParManyIter.get_batch_size
    (example_many_iter read_only_data [1; 4] (fixed_strategy (2 ^ 32 + 3))) 2
  = Some (3%N, [EvStrategy]).
Proof.
  split; [reflexivity|].
  destruct batch_size_cast_to_u32 as (_ & H & _).
  exact (H read_only_data _ (example_many_iter read_only_data [1; 4]
                               (fixed_strategy (2 ^ 32 + 3))) 2%N _ _ eq_refl).
Defined.

(* ------------------------------------------------------------------ *)
(** ** Further properties of [par_iter.rs] *)

Lemma par_iter_parallel_folded {T D} (it : QueryParIter.t D) (tc : N)
    (init : unit -> T) (func : T -> Entity -> T) items :
  state_valid (QueryParIter.world it) (QueryParIter.state it) = true ->
  query_items (QueryParIter.world it) (QueryParIter.state it)
    (QueryParIter.last_run it) (QueryParIter.this_run it) = Some items ->
  exists accs log,
    (b <- QueryParIter.parallel_batch_size it tc ;;
     par_fold_init_unchecked_manual init (QueryParIter.world it) (QueryParIter.state it) b
       func (QueryParIter.last_run it) (QueryParIter.this_run it)) = Some (accs, log) /\
    Permutation (folded log) items.
Proof.
  intros Hv Hsi.
  destruct (par_iter_batch_size_ok it tc Hv) as (b & lb & Hb & Hfb & Hb1).
  destruct (plan_batches_items (QueryParIter.world it) (QueryParIter.state it)
              (QueryParIter.last_run it) (QueryParIter.this_run it) b Hb1
              (matched_storage_ids (QueryParIter.state it)) [] 0%N [] Hv eq_refl)
    as (bl & items' & si & Hp & Hi & Hs & Hperm).
  unfold query_items in Hsi. rewrite Hsi in Hs. inversion Hs; subst si.
  destruct (run_tasks_folded (QueryParIter.world it) (QueryParIter.state it)
              (QueryParIter.last_run it) (QueryParIter.this_run it) init func bl items' Hi)
    as (accs & log & Hm & Hf & _).
  rewrite (bind_Some _ _ _ _ Hb). unfold par_fold_init_unchecked_manual.
  rewrite Hp. cbn [lift]. rewrite bind_ret_l. rewrite Hm.
  do 2 eexists. split; [reflexivity|].
  rewrite folded_app, Hfb, Hf. exact Hperm.
Qed.

Lemma par_iter_visits_items {T D} (env : Env) (it : QueryParIter.t D)
    (init : unit -> T) (func : T -> Entity -> T) :
  (multi_threaded env = true -> compute_task_pool env <> None) ->
  state_valid (QueryParIter.world it) (QueryParIter.state it) = true ->
  exists items accs log,
    query_items (QueryParIter.world it) (QueryParIter.state it)
      (QueryParIter.last_run it) (QueryParIter.this_run it) = Some items /\
    QueryParIter.for_each_init env it init func = Some (accs, log) /\
    Permutation (folded log) items.
Proof.
  intros Hinit Hv.
  destruct (query_items_valid _ _ (QueryParIter.last_run it) (QueryParIter.this_run it) Hv)
    as [items Hsi].
  exists items. unfold QueryParIter.for_each_init.
  destruct (branch_cases env (QueryParIter.fold_sequential it init func) (fun thread_count =>
       batch_size <- QueryParIter.parallel_batch_size it thread_count ;;
       par_fold_init_unchecked_manual init (QueryParIter.world it) (QueryParIter.state it)
         batch_size func (QueryParIter.last_run it) (QueryParIter.this_run it)) Hinit)
    as [-> | (tc & _ & ->)].
  - rewrite (fold_sequential_ok it init func items Hsi). do 2 eexists.
    split; [exact Hsi|]. split; [reflexivity|]. simpl. now rewrite folded_map_fold.
  - destruct (par_iter_parallel_folded it tc init func items Hv Hsi)
      as (accs & log & Hr & Hp).
    exists accs, log. auto.
Qed.

Lemma iter_many_items_concat {D} (w : World) (q : QueryState D) lr tr L :
  iter_many_items w q lr tr (concat L) = concat (map (iter_many_items w q lr tr) L).
Proof.
  induction L as [|b L IH]; [reflexivity|].
  simpl. unfold iter_many_items in *. now rewrite filter_app, IH.
Qed.

Lemma many_tasks_folded {T D} (w : World) (q : QueryState D) lr tr
    (init : unit -> T) (func : T -> Entity -> T) (L : list (list Entity)) :
  exists accs log,
    mapM (fun batch => _ <- emit EvInit ;;
                       fold_m func (init tt) (iter_many_items w q lr tr batch)) L
    = Some (accs, log) /\
    folded log = iter_many_items w q lr tr (concat L) /\ length accs = length L.
Proof.
  induction L as [|b L (accs & log & Hm & Hf & Hl)].
  - exists [], []. repeat split.
  - assert (Ht : (_ <- emit EvInit ;; fold_m func (init tt) (iter_many_items w q lr tr b))
                 = Some (fold_left func (iter_many_items w q lr tr b) (init tt),
                         EvInit :: map EvFold (iter_many_items w q lr tr b))).
    { unfold bind, emit. now rewrite fold_m_spec. }
    cbn [mapM]. rewrite (bind_Some _ _ _ _ Ht). cbv beta.
    rewrite (bind_Some _ _ _ _ Hm). simpl.
    do 2 eexists. split; [reflexivity|]. split.
    + simpl. rewrite app_nil_r, folded_app, folded_map_fold, Hf.
      unfold iter_many_items. now rewrite filter_app.
    + simpl. now rewrite Hl.
Qed.

Lemma many_visits_items {T D} (env : Env) (w : World) (q : QueryState D) lr tr
    (l : list Entity) (strategy : BatchingStrategy) (seq : Exec (list T))
    (init : unit -> T) (func : T -> Entity -> T) :
  (multi_threaded env = true -> compute_task_pool env <> None) ->
  seq = Some ([fold_left func (iter_many_items w q lr tr l) (init tt)],
              EvInit :: map EvFold (iter_many_items w q lr tr l)) ->
  exists accs log,
    (if negb (multi_threaded env) then seq
     else thread_count <- thread_num env ;;
          if (thread_count <=? 1)%N then seq
          else batch_size <- (bs <- (bs <- calc_batch_size strategy
                                             (_ <- emit EvMaxItems ;;
                                              ret (N.of_nat (length l))) thread_count ;;
                                     ret (as_u32 bs)) ;; ret (N.max bs 1)) ;;
               par_many_fold init w q l batch_size func lr tr) = Some (accs, log) /\
    folded log = iter_many_items w q lr tr l.
Proof.
  intros Hinit Hseq.
  destruct (branch_cases env seq (fun thread_count =>
     batch_size <- (bs <- (bs <- calc_batch_size strategy
                                   (_ <- emit EvMaxItems ;; ret (N.of_nat (length l)))
                                   thread_count ;; ret (as_u32 bs)) ;; ret (N.max bs 1)) ;;
     par_many_fold init w q l batch_size func lr tr) Hinit) as [-> | (tc & _ & ->)].
  - rewrite Hseq. do 2 eexists. split; [reflexivity|]. simpl. apply folded_map_fold.
  - destruct (calc_batch_size_log strategy
                (_ <- emit EvMaxItems ;; ret (N.of_nat (length l))) (N.of_nat (length l))
                [EvMaxItems] tc eq_refl) as [r Hr].
    assert (Hb : exists lb,
      (bs <- (bs <- calc_batch_size strategy
                      (_ <- emit EvMaxItems ;; ret (N.of_nat (length l))) tc ;;
              ret (as_u32 bs)) ;; ret (N.max bs 1)) = Some (N.max (as_u32 r) 1, lb) /\
      folded lb = []).
    { rewrite (bind_Some _ _ _ _ Hr). simpl. eexists. split; [reflexivity|].
      destruct (batch_size_override strategy); reflexivity. }
    destruct Hb as (lb & Hb & Hfb).
    rewrite (bind_Some _ _ _ _ Hb). unfold par_many_fold.
    destruct (many_tasks_folded w q lr tr init func (chunks (N.max (as_u32 r) 1) l (length l)))
      as (accs & log & Hm & Hf & _).
    rewrite Hm. do 2 eexists. split; [reflexivity|].
    rewrite folded_app, Hfb, Hf, chunks_concat; [reflexivity | lia | apply Nat.le_refl].
Qed.

Lemma storage_counts_fail {D} (w : World) (q : QueryState D) ids :
  forallb (fun id => match storage_entities w q id with Some _ => true | None => false end)
    ids = false ->
  (if is_dense q then mapM (table_entity_count w) ids else mapM (archetype_len w) ids)
  = None.
Proof.
  unfold storage_entities. destruct (is_dense q).
  - induction ids as [|id rest IH]; intros Hv; [discriminate|].
    simpl in Hv. cbn [mapM].
    destruct (nth_error (tables w) id) as [es|] eqn:E.
    + assert (Hx : table_entity_count w id = Some (length es, []))
        by (unfold table_entity_count; now rewrite E).
      rewrite (bind_Some _ _ _ _ Hx). cbv beta. simpl in Hv. now rewrite IH.
    + unfold table_entity_count, bind, lift. now rewrite E.
  - induction ids as [|id rest IH]; intros Hv; [discriminate|].
    simpl in Hv. cbn [mapM].
    destruct (nth_error (archetypes w) id) as [es|] eqn:E.
    + assert (Hx : archetype_len w id = Some (length es, []))
        by (unfold archetype_len; now rewrite E).
      rewrite (bind_Some _ _ _ _ Hx). cbv beta. simpl in Hv. now rewrite IH.
    + unfold archetype_len, bind, lift. now rewrite E.
Qed.

(** The thread pool is consulted only in the multi-threaded build: there
    an uninitialised [ComputeTaskPool] makes [for_each_init] of each
    iterator panic, whatever it would iterate; in the single-threaded
    build the pool is never read, and each [for_each_init] gives exactly
    what a multi-threaded run on a one-thread pool gives. *)
Theorem for_each_init_pool_use {T D Dr} {RO : ReadOnlyQueryData Dr}
    (it : QueryParIter.t D) (itm : QueryParManyIter.t Dr) (itu : QueryParManyUniqueIter.t D)
    (init : unit -> T) (func : T -> Entity -> T) :
  (forall env, multi_threaded env = true -> compute_task_pool env = None ->
   QueryParIter.for_each_init env it init func = None /\
   QueryParManyIter.for_each_init env itm init func = None /\
   QueryParManyUniqueIter.for_each_init env itu init func = None) /\
  (forall env, multi_threaded env = false ->
   QueryParIter.for_each_init env it init func
   = QueryParIter.for_each_init (multi_threaded_env 1) it init func /\
   QueryParManyIter.for_each_init env itm init func
   = QueryParManyIter.for_each_init (multi_threaded_env 1) itm init func /\
   QueryParManyUniqueIter.for_each_init env itu init func
   = QueryParManyUniqueIter.for_each_init (multi_threaded_env 1) itu init func).
Proof.
  split.
  - intros env Hmt Hpool.
    unfold QueryParIter.for_each_init, QueryParManyIter.for_each_init,
      QueryParManyUniqueIter.for_each_init, thread_num.
    rewrite Hmt, Hpool. repeat split.
  - intros env Hmt.
    unfold QueryParIter.for_each_init, QueryParManyIter.for_each_init,
      QueryParManyUniqueIter.for_each_init.
    rewrite Hmt. unfold thread_num, multi_threaded_env.
    cbn [multi_threaded compute_task_pool negb lift].
    repeat split; rewrite bind_ret_l; reflexivity.
Qed.

(** Witness of [for_each_init_pool_use]. *)
Lemma for_each_init_pool_use_witness :
  QueryParIter.for_each_init {| multi_threaded := true; compute_task_pool := None |}
    (example_par_iter mutable_data true [] default_strategy) (fun _ => []) collect = None /\
  QueryParManyUniqueIter.for_each_init {| multi_threaded := false; compute_task_pool := None |}
    (example_unique_iter mutable_data example_unique_list default_strategy) (fun _ => []) collect
  = QueryParManyUniqueIter.for_each_init (multi_threaded_env 1)
      (example_unique_iter mutable_data example_unique_list default_strategy)
      (fun _ => []) collect.
Proof.
  destruct (for_each_init_pool_use (Dr := read_only_data)
              (example_par_iter mutable_data true [] default_strategy)
              (example_many_iter read_only_data [] default_strategy)
              (example_unique_iter mutable_data example_unique_list default_strategy)
              (fun _ => []) collect) as [H1 H2].
  split.
  - exact (proj1 (H1 {| multi_threaded := true; compute_task_pool := None |} eq_refl eq_refl)).
  - exact (proj2 (proj2 (H2 {| multi_threaded := false; compute_task_pool := None |} eq_refl))).
Defined.

(** In every build and for every thread count (the pool being
    initialised where it is read), [QueryParIter::for_each_init] applies
    the fold function to exactly the items of the sequential query
    iterator, as a multiset. *)
Theorem par_iter_for_each_init_visits_query_items {T D} (env : Env) (it : QueryParIter.t D)
    (init : unit -> T) (func : T -> Entity -> T) :
  (multi_threaded env = true -> compute_task_pool env <> None) ->
  state_valid (QueryParIter.world it) (QueryParIter.state it) = true ->
  exists items accs log,
    query_items (QueryParIter.world it) (QueryParIter.state it)
      (QueryParIter.last_run it) (QueryParIter.this_run it) = Some items /\
    QueryParIter.for_each_init env it init func = Some (accs, log) /\
    Permutation (folded log) items.
Proof. exact (par_iter_visits_items env it init func). Qed.

Lemma par_iter_for_each_init_visits_query_items_witness :
  (multi_threaded (multi_threaded_env 3) = true ->
   compute_task_pool (multi_threaded_env 3) <> None) /\
  state_valid example_world (example_state mutable_data false [0; 2]) = true /\
  exists items accs log,
    query_items example_world (example_state mutable_data false [0; 2]) 0%N 1%N = Some items /\
    QueryParIter.for_each_init (multi_threaded_env 3)
      (example_par_iter mutable_data false [0; 2] default_strategy) (fun _ => []) collect
    = Some (accs, log) /\ Permutation (folded log) items.
Proof.
  assert (Hinit : multi_threaded (multi_threaded_env 3) = true ->
                  compute_task_pool (multi_threaded_env 3) <> None) by discriminate.
  split; [exact Hinit|]. split; [reflexivity|].
  exact (par_iter_for_each_init_visits_query_items (multi_threaded_env 3)
           (example_par_iter mutable_data false [0; 2] default_strategy)
           (fun _ => []) collect Hinit eq_refl).
Defined.

(** In every build and for every thread count (the pool being
    initialised where it is read), [for_each_init] of the entity-list
    iterators applies the fold function to exactly the entities of the
    list that match the query, as a multiset: duplicates of the
    non-unique list are visited once per occurrence, unmatched or dead
    entities are skipped, and nothing panics. *)
Theorem many_for_each_init_visits_list_items {T D Dr} {RO : ReadOnlyQueryData Dr}
    (env : Env) (itm : QueryParManyIter.t Dr) (itu : QueryParManyUniqueIter.t D)
    (init : unit -> T) (func : T -> Entity -> T) :
  (multi_threaded env = true -> compute_task_pool env <> None) ->
  (exists accs log,
     QueryParManyIter.for_each_init env itm init func = Some (accs, log) /\
     Permutation (folded log)
       (filter (fetch_many (QueryParManyIter.world itm) (QueryParManyIter.state itm)
                  (QueryParManyIter.last_run itm) (QueryParManyIter.this_run itm))
               (QueryParManyIter.entity_list itm))) /\
  (exists accs log,
     QueryParManyUniqueIter.for_each_init env itu init func = Some (accs, log) /\
     Permutation (folded log)
       (filter (fetch_many (QueryParManyUniqueIter.world itu)
                  (QueryParManyUniqueIter.state itu) (QueryParManyUniqueIter.last_run itu)
                  (QueryParManyUniqueIter.this_run itu))
               (uev_list (QueryParManyUniqueIter.entity_list itu)))).
Proof.
  intros Hinit. split.
  - destruct (many_visits_items env (QueryParManyIter.world itm) (QueryParManyIter.state itm)
                (QueryParManyIter.last_run itm) (QueryParManyIter.this_run itm)
                (QueryParManyIter.entity_list itm) (QueryParManyIter.batching_strategy itm)
                (QueryParManyIter.fold_sequential itm init func) init func Hinit)
      as (accs & log & H & Hf).
    { unfold QueryParManyIter.fold_sequential, bind, emit. rewrite fold_m_spec.
      simpl. now rewrite app_nil_r. }
    exists accs, log. split; [exact H|]. rewrite Hf. reflexivity.
  - destruct (many_visits_items env (QueryParManyUniqueIter.world itu)
                (QueryParManyUniqueIter.state itu)
                (QueryParManyUniqueIter.last_run itu) (QueryParManyUniqueIter.this_run itu)
                (uev_list (QueryParManyUniqueIter.entity_list itu))
                (QueryParManyUniqueIter.batching_strategy itu)
                (QueryParManyUniqueIter.fold_sequential itu init func) init func Hinit)
      as (accs & log & H & Hf).
    { unfold QueryParManyUniqueIter.fold_sequential, bind, emit. rewrite fold_m_spec.
      simpl. now rewrite app_nil_r. }
    exists accs, log. split; [exact H|]. rewrite Hf. reflexivity.
Qed.

(** Witness: the list [[1; 1; 4; 9]] over archetypes 0 and 2 (entity 4
    lives in the unmatched archetype 1, entity 9 nowhere) on 2 threads. *)
Lemma many_for_each_init_visits_list_items_witness :
  (multi_threaded (multi_threaded_env 2) = true ->
   compute_task_pool (multi_threaded_env 2) <> None) /\
  exists accs log,
    QueryParManyIter.for_each_init (multi_threaded_env 2)
      (example_many_iter read_only_data [1; 1; 4; 9] default_strategy) (fun _ => []) collect
    = Some (accs, log) /\ Permutation (folded log) [1; 1].
Proof.
  assert (Hinit : multi_threaded (multi_threaded_env 2) = true ->
                  compute_task_pool (multi_threaded_env 2) <> None) by discriminate.
  split; [exact Hinit|].
  destruct (many_for_each_init_visits_list_items (multi_threaded_env 2)
              (example_many_iter read_only_data [1; 1; 4; 9] default_strategy)
              (example_unique_iter mutable_data example_unique_list default_strategy)
              (fun _ => []) collect Hinit) as [H _].
  exact H.
Defined.

(* ------------------------------------------------------------------ *)
(** ** The closures never steer the run *)

Lemma log_bind_same {A B C} (m : Exec A) (k1 : A -> Exec B) (k2 : A -> Exec C) :
  (forall a, log_of (k1 a) = log_of (k2 a)) ->
  log_of (bind m k1) = log_of (bind m k2).
Proof.
  intros H. unfold log_of, bind. destruct m as [[a l1]|]; [|reflexivity].
  specialize (H a). unfold log_of in H.
  destruct (k1 a) as [[b1 l2]|], (k2 a) as [[b2 l3]|]; simpl in *; congruence.
Qed.

Lemma log_bind {A1 A2 B C} (m1 : Exec A1) (m2 : Exec A2) (k1 : A1 -> Exec B) (k2 : A2 -> Exec C) :
  log_of m1 = log_of m2 ->
  (forall a1 a2, log_of (k1 a1) = log_of (k2 a2)) ->
  log_of (bind m1 k1) = log_of (bind m2 k2).
Proof.
  intros Hm H. unfold log_of, bind in *.
  destruct m1 as [[a1 l1]|], m2 as [[a2 l2]|]; simpl in Hm; try discriminate; [|reflexivity].
  injection Hm as ->. specialize (H a1 a2).
  destruct (k1 a1) as [[b1 l3]|], (k2 a2) as [[b2 l4]|]; simpl in *; congruence.
Qed.

Lemma log_fold_m {T1 T2} (f1 : T1 -> Entity -> T1) (f2 : T2 -> Entity -> T2) a1 a2 items :
  log_of (fold_m f1 a1 items) = log_of (fold_m f2 a2 items).
Proof. unfold log_of. now rewrite !fold_m_spec. Qed.

Lemma log_ret {A B} (a : A) (b : B) : log_of (ret a) = log_of (ret b).
Proof. reflexivity. Qed.

Lemma log_mapM {A B C} (f : A -> Exec B) (g : A -> Exec C) (l : list A) :
  (forall x, log_of (f x) = log_of (g x)) ->
  log_of (mapM f l) = log_of (mapM g l).
Proof.
  intros H. induction l as [|x r IH]; [reflexivity|]. cbn [mapM].
  apply log_bind; [apply H|]. intros a1 a2.
  apply log_bind; [exact IH|]. intros; apply log_ret.
Qed.

Ltac log_step :=
  first
    [ apply log_fold_m
    | apply log_ret
    | apply log_mapM; intros ?
    | apply log_bind_same; intros ?; cbv zeta
    | apply log_bind; [solve [log_step] | intros ? ?; cbv zeta] ].

Lemma par_iter_log_indep {T1 T2 D} env (it : QueryParIter.t D)
    (init1 : unit -> T1) func1 (init2 : unit -> T2) func2 :
  log_of (QueryParIter.for_each_init env it init1 func1)
  = log_of (QueryParIter.for_each_init env it init2 func2).
Proof.
  unfold QueryParIter.for_each_init, QueryParIter.fold_sequential,
    par_fold_init_unchecked_manual, run_task.
  destruct (negb (multi_threaded env)); [repeat log_step|].
  apply log_bind_same; intros tc. destruct (tc <=? 1)%N; repeat log_step.
Qed.

Lemma many_log_indep {T1 T2 D} {RO : ReadOnlyQueryData D} env (it : QueryParManyIter.t D)
    (init1 : unit -> T1) func1 (init2 : unit -> T2) func2 :
  log_of (QueryParManyIter.for_each_init env it init1 func1)
  = log_of (QueryParManyIter.for_each_init env it init2 func2).
Proof.
  unfold QueryParManyIter.for_each_init, QueryParManyIter.fold_sequential, par_many_fold.
  destruct (negb (multi_threaded env)); [repeat log_step|].
  apply log_bind_same; intros tc. destruct (tc <=? 1)%N; repeat log_step.
Qed.

Lemma unique_log_indep {T1 T2 D} env (it : QueryParManyUniqueIter.t D)
    (init1 : unit -> T1) func1 (init2 : unit -> T2) func2 :
  log_of (QueryParManyUniqueIter.for_each_init env it init1 func1)
  = log_of (QueryParManyUniqueIter.for_each_init env it init2 func2).
Proof.
  unfold QueryParManyUniqueIter.for_each_init, QueryParManyUniqueIter.fold_sequential,
    par_many_fold.
  destruct (negb (multi_threaded env)); [repeat log_step|].
  apply log_bind_same; intros tc. destruct (tc <=? 1)%N; repeat log_step.
Qed.



(* ------------------------------------------------------------------ *)
(** ** Replacing the batching strategy *)

Lemma many_iter_visits {T D} {RO : ReadOnlyQueryData D} (env : Env)
    (itm : QueryParManyIter.t D) (init : unit -> T) (func : T -> Entity -> T) :
  (multi_threaded env = true -> compute_task_pool env <> None) ->
  exists accs log,
    QueryParManyIter.for_each_init env itm init func = Some (accs, log) /\
    folded log = iter_many_items (QueryParManyIter.world itm) (QueryParManyIter.state itm)
                   (QueryParManyIter.last_run itm) (QueryParManyIter.this_run itm)
                   (QueryParManyIter.entity_list itm).
Proof.
  intros Hinit.
  apply (many_visits_items env (QueryParManyIter.world itm) (QueryParManyIter.state itm)
           (QueryParManyIter.last_run itm) (QueryParManyIter.this_run itm)
           (QueryParManyIter.entity_list itm) (QueryParManyIter.batching_strategy itm)
           (QueryParManyIter.fold_sequential itm init func) init func Hinit).
  unfold QueryParManyIter.fold_sequential, bind, emit. rewrite fold_m_spec.
  simpl. now rewrite app_nil_r.
Qed.

Lemma unique_iter_visits {T D} (env : Env)
    (itu : QueryParManyUniqueIter.t D) (init : unit -> T) (func : T -> Entity -> T) :
  (multi_threaded env = true -> compute_task_pool env <> None) ->
  exists accs log,
    QueryParManyUniqueIter.for_each_init env itu init func = Some (accs, log) /\
    folded log = iter_many_items (QueryParManyUniqueIter.world itu)
                   (QueryParManyUniqueIter.state itu) (QueryParManyUniqueIter.last_run itu)
                   (QueryParManyUniqueIter.this_run itu)
                   (uev_list (QueryParManyUniqueIter.entity_list itu)).
Proof.
  intros Hinit.
  apply (many_visits_items env (QueryParManyUniqueIter.world itu)
           (QueryParManyUniqueIter.state itu)
           (QueryParManyUniqueIter.last_run itu) (QueryParManyUniqueIter.this_run itu)
           (uev_list (QueryParManyUniqueIter.entity_list itu))
           (QueryParManyUniqueIter.batching_strategy itu)
           (QueryParManyUniqueIter.fold_sequential itu init func) init func Hinit).
  unfold QueryParManyUniqueIter.fold_sequential, bind, emit. rewrite fold_m_spec.
  simpl. now rewrite app_nil_r.
Qed.

(** [batching_strategy(strategy)] changes how the work is cut into
    tasks but never what is iterated: for any strategy, [for_each_init]
    of the iterator with the strategy replaced applies the fold function
    to the same multiset of items as the original iterator (the pool
    being initialised where it is read, and the matched storages of a
    [QueryParIter] existing). *)
Theorem batching_strategy_preserves_visits {T D Dr} {RO : ReadOnlyQueryData Dr}
    (env : Env) (it : QueryParIter.t D) (itm : QueryParManyIter.t Dr)
    (itu : QueryParManyUniqueIter.t D) (s : BatchingStrategy)
    (init : unit -> T) (func : T -> Entity -> T) :
  (multi_threaded env = true -> compute_task_pool env <> None) ->
  state_valid (QueryParIter.world it) (QueryParIter.state it) = true ->
  (exists a1 l1 a2 l2,
     QueryParIter.for_each_init env it init func = Some (a1, l1) /\
     QueryParIter.for_each_init env (QueryParIter.with_batching_strategy it s) init func
       = Some (a2, l2) /\
     Permutation (folded l1) (folded l2)) /\
  (exists a1 l1 a2 l2,
     QueryParManyIter.for_each_init env itm init func = Some (a1, l1) /\
     QueryParManyIter.for_each_init env (QueryParManyIter.with_batching_strategy itm s)
       init func = Some (a2, l2) /\
     Permutation (folded l1) (folded l2)) /\
  (exists a1 l1 a2 l2,
     QueryParManyUniqueIter.for_each_init env itu init func = Some (a1, l1) /\
     QueryParManyUniqueIter.for_each_init env
       (QueryParManyUniqueIter.with_batching_strategy itu s) init func = Some (a2, l2) /\
     Permutation (folded l1) (folded l2)).
Proof.
  intros Hinit Hv. split; [|split].
  - destruct (par_iter_visits_items env it init func Hinit Hv)
      as (items & a1 & l1 & Hq & H1 & P1).
    destruct (par_iter_visits_items env (QueryParIter.with_batching_strategy it s)
                init func Hinit Hv) as (items' & a2 & l2 & Hq' & H2 & P2).
    cbn [QueryParIter.with_batching_strategy QueryParIter.world QueryParIter.state
         QueryParIter.last_run QueryParIter.this_run] in Hq'.
    rewrite Hq in Hq'. injection Hq' as <-.
    exists a1, l1, a2, l2. split; [exact H1|]. split; [exact H2|].
    transitivity items; [exact P1 | symmetry; exact P2].
  - destruct (many_iter_visits env itm init func Hinit) as (a1 & l1 & H1 & F1).
    destruct (many_iter_visits env (QueryParManyIter.with_batching_strategy itm s)
                init func Hinit) as (a2 & l2 & H2 & F2).
    exists a1, l1, a2, l2. split; [exact H1|]. split; [exact H2|].
    rewrite F1, F2. reflexivity.
  - destruct (unique_iter_visits env itu init func Hinit) as (a1 & l1 & H1 & F1).
    destruct (unique_iter_visits env (QueryParManyUniqueIter.with_batching_strategy itu s)
                init func Hinit) as (a2 & l2 & H2 & F2).
    exists a1, l1, a2, l2. split; [exact H1|]. split; [exact H2|].
    rewrite F1, F2. reflexivity.
Qed.

(** Witness: replacing the default strategy by a fixed batch size of 1
    on a 3-thread pool. *)
Lemma batching_strategy_preserves_visits_witness :
  (multi_threaded (multi_threaded_env 3) = true ->
   compute_task_pool (multi_threaded_env 3) <> None) /\
  state_valid example_world (example_state mutable_data true [0; 1; 2]) = true /\
  exists a1 l1 a2 l2,
    QueryParIter.for_each_init (multi_threaded_env 3)
      (example_par_iter mutable_data true [0; 1; 2] default_strategy) (fun _ => []) collect
    = Some (a1, l1) /\
    QueryParIter.for_each_init (multi_threaded_env 3)
      (QueryParIter.with_batching_strategy
         (example_par_iter mutable_data true [0; 1; 2] default_strategy) (fixed_strategy 1))
      (fun _ => []) collect = Some (a2, l2) /\
    Permutation (folded l1) (folded l2).
Proof.
  assert (Hinit : multi_threaded (multi_threaded_env 3) = true ->
                  compute_task_pool (multi_threaded_env 3) <> None) by discriminate.
  split; [exact Hinit|]. split; [reflexivity|].
  destruct (batching_strategy_preserves_visits (multi_threaded_env 3)
              (example_par_iter mutable_data true [0; 1; 2] default_strategy)
              (example_many_iter read_only_data [1; 4] default_strategy)
              (example_unique_iter mutable_data example_unique_list default_strategy)
              (fixed_strategy 1) (fun _ => []) collect Hinit eq_refl) as [H _].
  exact H.
Defined.

(* ------------------------------------------------------------------ *)
(** ** When [get_batch_size] and [for_each_init] panic *)

(** [get_batch_size] of a [QueryParIter] panics exactly when the strategy
    has no explicit batch size (so the [max_items] closure runs) and a
    matched storage id is out of range; the list iterators measure only
    their list and never panic there. *)
Theorem get_batch_size_panics {D Dr} {RO : ReadOnlyQueryData Dr}
    (it : QueryParIter.t D) (itm : QueryParManyIter.t Dr)
    (itu : QueryParManyUniqueIter.t D) (tc : N) :
  (QueryParIter.get_batch_size it tc = None <->
   batch_size_override (QueryParIter.batching_strategy it) = None /\
   state_valid (QueryParIter.world it) (QueryParIter.state it) = false) /\
  QueryParManyIter.get_batch_size itm tc <> None /\
  QueryParManyUniqueIter.get_batch_size itu tc <> None.
Proof.
  split; [|split].
  - unfold QueryParIter.get_batch_size, calc_batch_size.
    destruct (batch_size_override (QueryParIter.batching_strategy it)) as [n|] eqn:Eo.
    + unfold bind, emit, ret. simpl.
      split; [discriminate | intros [H _]; discriminate].
    + destruct (state_valid (QueryParIter.world it) (QueryParIter.state it)) eqn:Ev.
      * rewrite (max_items_ok it Ev).
        destruct (batch_size_limits (QueryParIter.batching_strategy it)) as [mn mx].
        unfold bind, emit, ret. simpl.
        split; [discriminate | intros [_ H]; discriminate].
      * assert (Hm : QueryParIter.max_items it = None).
        { unfold QueryParIter.max_items.
          rewrite (bind_Some (emit EvMaxItems) _ tt [EvMaxItems] eq_refl). cbv beta.
          unfold state_valid in Ev. rewrite (storage_counts_fail _ _ _ Ev). reflexivity. }
        rewrite Hm. unfold bind, emit. simpl. tauto.
  - unfold QueryParManyIter.get_batch_size, calc_batch_size, bind, emit, ret.
    destruct (batch_size_override (QueryParManyIter.batching_strategy itm)); [discriminate|].
    destruct (batch_size_limits (QueryParManyIter.batching_strategy itm)). discriminate.
  - unfold QueryParManyUniqueIter.get_batch_size, calc_batch_size, bind, emit, ret.
    destruct (batch_size_override (QueryParManyUniqueIter.batching_strategy itu));
      [discriminate|].
    destruct (batch_size_limits (QueryParManyUniqueIter.batching_strategy itu)). discriminate.
Qed.

(** Witness: a sparse state matching archetype 7 of a three-archetype
    world panics under the default strategy, not under a fixed size. *)
Lemma get_batch_size_panics_witness :
  QueryParIter.get_batch_size (example_par_iter mutable_data false [0; 7] default_strategy) 4
    = None /\
  QueryParIter.get_batch_size (example_par_iter mutable_data false [0; 7] (fixed_strategy 2)) 4
    <> None.
Proof.
  destruct (get_batch_size_panics (Dr := read_only_data)
              (example_par_iter mutable_data false [0; 7] default_strategy)
              (example_many_iter read_only_data [1] default_strategy)
              (example_unique_iter mutable_data example_unique_list default_strategy) 4)
    as [[_ H1] _].
  destruct (get_batch_size_panics (Dr := read_only_data)
              (example_par_iter mutable_data false [0; 7] (fixed_strategy 2))
              (example_many_iter read_only_data [1] default_strategy)
              (example_unique_iter mutable_data example_unique_list default_strategy) 4)
    as [[H2 _] _].
  split.
  - apply H1. split; reflexivity.
  - intros H. destruct (H2 H) as [H3 _]. discriminate H3.
Defined.

Lemma storages_items_invalid {D} (w : World) (q : QueryState D) lr tr ids :
  forallb (fun id => match storage_entities w q id with Some _ => true | None => false end)
    ids = false ->
  storages_items w q lr tr ids = None.
Proof.
  induction ids as [|id rest IH]; intros Hv; [discriminate|].
  simpl in Hv. simpl. destruct (storage_entities w q id); [|reflexivity].
  simpl in Hv. now rewrite IH.
Qed.

Lemma plan_batches_invalid {D} (w : World) (q : QueryState D) bs ids :
  forallb (fun id => match storage_entities w q id with Some _ => true | None => false end)
    ids = false ->
  forall queue qc, plan_batches w q bs ids queue qc = None.
Proof.
  induction ids as [|id rest IH]; intros Hv queue qc; [discriminate|].
  simpl in Hv. simpl. destruct (storage_entities w q id) as [es|]; [|reflexivity].
  simpl in Hv.
  destruct (length es =? 0); [now rewrite IH|].
  destruct (bs <=? N.of_nat (length es))%N; [now rewrite IH|].
  destruct (qc + N.of_nat (length es) <=? bs)%N; now rewrite IH.
Qed.



(* ------------------------------------------------------------------ *)
(** ** The unique list is visited without repetition *)

(** [QueryParManyUniqueIter::for_each_init] (the pool being initialised
    where it is read) applies the fold function at most once to each
    entity, and only to entities of its list: no two tasks, and no task
    twice, receive the item of one entity. *)
Theorem unique_iter_visits_each_entity_once {T D} (env : Env)
    (itu : QueryParManyUniqueIter.t D) (init : unit -> T) (func : T -> Entity -> T) :
  (multi_threaded env = true -> compute_task_pool env <> None) ->
  exists accs log,
    QueryParManyUniqueIter.for_each_init env itu init func = Some (accs, log) /\
    NoDup (folded log) /\
    incl (folded log) (uev_list (QueryParManyUniqueIter.entity_list itu)).
Proof.
  intros Hinit. destruct (unique_iter_visits env itu init func Hinit) as (accs & log & H & F).
  exists accs, log. split; [exact H|]. rewrite F. unfold iter_many_items. split.
  - apply NoDup_filter, uev_unique.
  - intros x Hx. apply filter_In in Hx. tauto.
Qed.

Lemma unique_iter_visits_each_entity_once_witness :
  (multi_threaded (multi_threaded_env 2) = true ->
   compute_task_pool (multi_threaded_env 2) <> None) /\
  exists accs log,
    QueryParManyUniqueIter.for_each_init (multi_threaded_env 2)
      (example_unique_iter mutable_data example_unique_list (fixed_strategy 1))
      (fun _ => []) collect = Some (accs, log) /\
    NoDup (folded log) /\ incl (folded log) [1; 4; 6].
Proof.
  assert (Hinit : multi_threaded (multi_threaded_env 2) = true ->
                  compute_task_pool (multi_threaded_env 2) <> None) by discriminate.
  split; [exact Hinit|].
  exact (unique_iter_visits_each_entity_once (multi_threaded_env 2)
           (example_unique_iter mutable_data example_unique_list (fixed_strategy 1))
           (fun _ => []) collect Hinit).
Defined.

(* ------------------------------------------------------------------ *)
(** ** Order of the calls on the parallel path *)

Lemma task_events_fold items : forallb is_task_event (map EvFold items) = true.
Proof. induction items; simpl; auto. Qed.

Lemma mapM_task_events {A B} (f : A -> Exec B) :
  (forall x b l, f x = Some (b, l) -> forallb is_task_event l = true) ->
  forall xs bs l, mapM f xs = Some (bs, l) -> forallb is_task_event l = true.
Proof.
  intros Hf xs. induction xs as [|x r IH]; intros bs l H.
  - inversion H. reflexivity.
  - cbn [mapM] in H. unfold bind at 1 in H.
    destruct (f x) as [[b l1]|] eqn:E1; [|discriminate].
    unfold bind in H. destruct (mapM f r) as [[ys l2]|] eqn:E2; [|discriminate].
    inversion H; subst. rewrite !forallb_app. simpl.
    rewrite (Hf _ _ _ E1), (IH _ _ eq_refl). reflexivity.
Qed.

Lemma run_task_events {T D} (w : World) (q : QueryState D) lr tr
    (init : unit -> T) (func : T -> Entity -> T) b a l :
  run_task w q lr tr init func b = Some (a, l) -> forallb is_task_event l = true.
Proof.
  unfold run_task, bind, emit, lift, ret.
  destruct (batch_items w q lr tr b) as [items|]; [|discriminate].
  rewrite fold_m_spec. intros H. inversion H. simpl. apply task_events_fold.
Qed.

Lemma many_task_events {T D} (w : World) (q : QueryState D) lr tr
    (init : unit -> T) (func : T -> Entity -> T) batch a l :
  (_ <- emit EvInit ;; fold_m func (init tt) (iter_many_items w q lr tr batch))
    = Some (a, l) -> forallb is_task_event l = true.
Proof.
  unfold bind, emit. rewrite fold_m_spec. intros H. inversion H. simpl.
  apply task_events_fold.
Qed.

Lemma many_parallel_order {T D} (tc : N) (w : World) (q : QueryState D) lr tr
    (l : list Entity) (strategy : BatchingStrategy)
    (init : unit -> T) (func : T -> Entity -> T) :
  exists accs lt,
    (batch_size <- (bs <- (bs <- calc_batch_size strategy
                                   (_ <- emit EvMaxItems ;; ret (N.of_nat (length l)))
                                   tc ;; ret (as_u32 bs)) ;; ret (N.max bs 1)) ;;
     par_many_fold init w q l batch_size func lr tr)
    = Some (accs, EvStrategy :: match batch_size_override strategy with
                                | Some _ => []
                                | None => [EvMaxItems]
                                end ++ lt) /\
    forallb is_task_event lt = true.
Proof.
  destruct (calc_batch_size_log strategy (_ <- emit EvMaxItems ;; ret (N.of_nat (length l)))
              (N.of_nat (length l)) [EvMaxItems] tc eq_refl) as [r Hr].
  assert (Hb : (bs <- (bs <- calc_batch_size strategy
                                (_ <- emit EvMaxItems ;; ret (N.of_nat (length l))) tc ;;
                        ret (as_u32 bs)) ;; ret (N.max bs 1))
               = Some (N.max (as_u32 r) 1,
                       EvStrategy :: match batch_size_override strategy with
                                     | Some _ => []
                                     | None => [EvMaxItems]
                                     end)).
  { rewrite (bind_Some _ _ _ _ Hr). simpl.
    destruct (batch_size_override strategy); reflexivity. }
  rewrite (bind_Some _ _ _ _ Hb). unfold par_many_fold.
  destruct (many_tasks_folded w q lr tr init func (chunks (N.max (as_u32 r) 1) l (length l)))
    as (accs & lt & Hm & _ & _).
  rewrite Hm. exists accs, lt. split.
  - destruct (batch_size_override strategy); reflexivity.
  - exact (mapM_task_events _ (many_task_events w q lr tr init func) _ _ _ Hm).
Qed.

(** On the parallel path (multi-threaded build, a pool of more than one
    thread) each iterator consults the batching strategy exactly once,
    before anything else; the max-items closure runs once right after,
    only when the strategy has no explicit batch size; everything that
    follows is [init] calls and fold applications of the tasks (for a
    [QueryParIter] whose matched storages exist). *)
Theorem parallel_path_call_order {T D Dr} {RO : ReadOnlyQueryData Dr}
    (env : Env) (tc : N) (it : QueryParIter.t D) (itm : QueryParManyIter.t Dr)
    (itu : QueryParManyUniqueIter.t D) (init : unit -> T) (func : T -> Entity -> T) :
  multi_threaded env = true -> compute_task_pool env = Some tc -> (1 < tc)%N ->
  state_valid (QueryParIter.world it) (QueryParIter.state it) = true ->
  (exists accs lt,
     QueryParIter.for_each_init env it init func
     = Some (accs, EvStrategy :: match batch_size_override (QueryParIter.batching_strategy it) with
                                 | Some _ => []
                                 | None => [EvMaxItems]
                                 end ++ lt) /\
     forallb is_task_event lt = true) /\
  (exists accs lt,
     QueryParManyIter.for_each_init env itm init func
     = Some (accs, EvStrategy :: match batch_size_override
                                         (QueryParManyIter.batching_strategy itm) with
                                 | Some _ => []
                                 | None => [EvMaxItems]
                                 end ++ lt) /\
     forallb is_task_event lt = true) /\
  (exists accs lt,
     QueryParManyUniqueIter.for_each_init env itu init func
     = Some (accs, EvStrategy :: match batch_size_override
                                         (QueryParManyUniqueIter.batching_strategy itu) with
                                 | Some _ => []
                                 | None => [EvMaxItems]
                                 end ++ lt) /\
     forallb is_task_event lt = true).
Proof.
  intros Hmt Hpool Htc Hv. split; [|split].
  - unfold QueryParIter.for_each_init. rewrite (parallel_branch env tc _ (fun thread_count =>
         batch_size <- QueryParIter.parallel_batch_size it thread_count ;;
         par_fold_init_unchecked_manual init (QueryParIter.world it) (QueryParIter.state it)
           batch_size func (QueryParIter.last_run it) (QueryParIter.this_run it))
         Hmt Hpool Htc).
    destruct (calc_batch_size_log (QueryParIter.batching_strategy it)
                (QueryParIter.max_items it) _ _ tc (max_items_ok it Hv)) as [r Hr].
    assert (Hb : QueryParIter.parallel_batch_size it tc
                 = Some (N.max (as_u32 r) 1,
                         EvStrategy :: match batch_size_override
                                               (QueryParIter.batching_strategy it) with
                                       | Some _ => []
                                       | None => [EvMaxItems]
                                       end)).
    { unfold QueryParIter.parallel_batch_size, QueryParIter.get_batch_size.
      rewrite (bind_Some _ _ _ _ Hr). simpl.
      destruct (batch_size_override (QueryParIter.batching_strategy it)); reflexivity. }
    cbv beta. rewrite (bind_Some _ _ _ _ Hb).
    destruct (plan_batches_items (QueryParIter.world it) (QueryParIter.state it)
                (QueryParIter.last_run it) (QueryParIter.this_run it) (N.max (as_u32 r) 1)
                ltac:(lia) (matched_storage_ids (QueryParIter.state it)) [] 0%N [] Hv eq_refl)
      as (bl & items & si & Hp & Hi & _ & _).
    destruct (run_tasks_folded (QueryParIter.world it) (QueryParIter.state it)
                (QueryParIter.last_run it) (QueryParIter.this_run it) init func bl items Hi)
      as (accs & lt & Hm & _ & _).
    unfold par_fold_init_unchecked_manual. rewrite Hp. cbn [lift]. rewrite bind_ret_l, Hm.
    exists accs, lt. split.
    + destruct (batch_size_override (QueryParIter.batching_strategy it)); reflexivity.
    + exact (mapM_task_events _ (run_task_events _ _ _ _ init func) _ _ _ Hm).
  - unfold QueryParManyIter.for_each_init, QueryParManyIter.parallel_batch_size,
      QueryParManyIter.get_batch_size.
    rewrite (parallel_branch env tc _ _ Hmt Hpool Htc).
    apply many_parallel_order.
  - unfold QueryParManyUniqueIter.for_each_init, QueryParManyUniqueIter.parallel_batch_size,
      QueryParManyUniqueIter.get_batch_size.
    rewrite (parallel_branch env tc _ _ Hmt Hpool Htc).
    apply many_parallel_order.
Qed.

(** Witness: the default strategy (no explicit size) on a 4-thread pool. *)
Lemma parallel_path_call_order_witness :
  multi_threaded (multi_threaded_env 4) = true /\
  compute_task_pool (multi_threaded_env 4) = Some 4%N /\ (1 < 4)%N /\
  state_valid example_world (example_state mutable_data true [0; 2]) = true /\
  exists accs lt,
    QueryParIter.for_each_init (multi_threaded_env 4)
      (example_par_iter mutable_data true [0; 2] default_strategy) (fun _ => []) collect
    = Some (accs, EvStrategy :: EvMaxItems :: lt) /\
    forallb is_task_event lt = true.
Proof.
  split; [reflexivity|]. split; [reflexivity|]. split; [lia|]. split; [reflexivity|].
  destruct (parallel_path_call_order (Dr := read_only_data) (multi_threaded_env 4) 4
              (example_par_iter mutable_data true [0; 2] default_strategy)
              (example_many_iter read_only_data [1; 4] default_strategy)
              (example_unique_iter mutable_data example_unique_list default_strategy)
              (fun _ => []) collect eq_refl eq_refl ltac:(lia) eq_refl) as [H _].
  exact H.
Defined.
